(** * meme_ocr: a shallow embedding of [main.py]

    [main.py] has two classes.  [Reddit] wraps the PRAW client: it lists the
    posts of a subreddit, keeps the image URLs and picks one at random.
    [Image] downloads one URL into a fresh directory, thresholds the picture,
    keeps the contours that look like caption lines, crops them out of the
    thresholded mask, runs Tesseract on every crop and writes the annotated
    picture and the texts to disk.

    Python objects with mutable state are modelled by explicit state passing
    over a [world] (file system and the heap of colour buffers); exceptions
    by a [result] type.  OpenCV, Tesseract, urllib and PRAW are library calls:
    the ones whose behaviour a property depends on ([cv2.threshold], NumPy
    slicing, [np.random.choice], [list.remove]) are written out, the others
    are fields of the record [libs]. *)

From Equations Require Import Equations.
From stdpp Require Import base option list strings gmap.
From Stdlib Require Import ZArith Lia.

Local Open Scope Z_scope.

(** ** Exceptions and results *)

Inductive exn : Set :=
| NameError        (* a name is looked up that no scope binds *)
| AttributeError   (* attribute access on an object that lacks it *)
| ValueError       (* numpy: empty population, ambiguous truth value *)
| AssertionError   (* a failed [assert] *)
| URLError         (* urllib could not retrieve the URL; ContentTooShortError *)
| TypeError        (* an argument of the wrong type *)
| LookupError      (* IndexError, KeyError *)
| TesseractError   (* pytesseract could not run the engine or read the picture *)
| OSError.         (* FileNotFoundError, FileExistsError, NotADirectoryError *)

Inductive result (A : Type) : Type :=
| Ok (a : A)
| Raise (e : exn).
Arguments Ok {A} a.
Arguments Raise {A} e.

Definition is_Ok {A} (r : result A) : bool :=
  match r with Ok _ => true | Raise _ => false end.

(** ** Arrays *)

(** A single-channel 8-bit picture, row by row; a pixel is a [Z] in 0..255. *)
Abbreviation mask := (list (list Z)).

(** A pixel of a colour picture, in OpenCV's channel order (blue, green, red). *)
Abbreviation bgr := (Z * Z * Z)%type.
Abbreviation bgr_image := (list (list (Z * Z * Z))).

(** [numpy.ndarray.shape] of a picture: rows, then columns. *)
Definition shape {A} (a : list (list A)) : Z * Z :=
  (Z.of_nat (length a), Z.of_nat (length (hd [] a))).

(** A contour as [cv2.findContours] returns it: the points of the boundary. *)
Abbreviation contour := (list (Z * Z)).

(** A bounding rectangle [x, y, w, h]. *)
Abbreviation rect := (Z * Z * Z * Z)%type.

(** Python's normalisation of one bound of a slice over a sequence of
    length [len]: a negative bound counts from the end, and the bound is
    clamped to the sequence. *)
Definition slice_bound (len i : Z) : Z :=
  Z.max 0 (Z.min len (if i <? 0 then i + len else i)).

(** [l[lo:hi]] *)
Definition py_slice {A} (l : list A) (lo hi : Z) : list A :=
  let len := Z.of_nat (length l) in
  let a := slice_bound len lo in
  let b := slice_bound len hi in
  take (Z.to_nat (b - a)) (drop (Z.to_nat a) l).

(** [a[r0:r1, c0:c1]] on a two-dimensional array. *)
Definition ndarray_slice2 {A} (a : list (list A)) (r0 r1 c0 c1 : Z) : list (list A) :=
  map (fun row => py_slice row c0 c1) (py_slice a r0 r1).

(** Arithmetic of [numpy.uint8]: results wrap modulo 256. *)
Definition uint8 (z : Z) : Z := z mod 256.

(** ** [cv2.threshold] *)

Inductive threshold_type : Set := THRESH_BINARY | THRESH_BINARY_INV.

(** One pixel of [cv2.threshold(src, thresh, maxval, type)]:
    THRESH_BINARY keeps [maxval] where [src > thresh], THRESH_BINARY_INV
    keeps it where that comparison fails. *)
Definition threshold_pixel (ty : threshold_type) (thresh maxval src : Z) : Z :=
  match ty with
  | THRESH_BINARY => if src >? thresh then maxval else 0
  | THRESH_BINARY_INV => if src >? thresh then 0 else maxval
  end.

(** [cv2.threshold] returns the threshold it used and the new picture. *)
Definition cv2_threshold (src : mask) (thresh maxval : Z) (ty : threshold_type)
  : Z * mask :=
  (thresh, map (map (threshold_pixel ty thresh maxval)) src).

(** The thresholding step of [Image.get_text_boxes]:
<<
    _, thresh = cv2.threshold(gray, 250, 255, cv2.THRESH_BINARY_INV)
    thresh = 255 - thresh # invert the image
>> *)
Definition threshold_step (gray : mask) : mask :=
  let '(_, thresh) := cv2_threshold gray 250 255 THRESH_BINARY_INV in
  map (map (fun p => uint8 (255 - p))) thresh.

(** The pixel of a picture at row [r], column [c]. *)
Definition pixel (m : mask) (r c : nat) : option Z :=
  match m !! r with
  | Some row => row !! c
  | None => None
  end.

(** ** The world: file system and colour buffers *)

(** A path is the list of its components: [os.path.join] appends components
    (every component joined in [main.py] is a non-empty relative name without
    a separator, the run identifier being a UUID in text form). *)
Abbreviation path := (list string).

Definition os_path_join (a b : path) : path := a ++ b.

(** [os.path.dirname] *)
Definition dirname (p : path) : path := removelast p.

(** A colour buffer is a mutable [numpy.ndarray]; objects hold its address. *)
Abbreviation loc := nat (only parsing).

Record world : Type := mkWorld {
  dirs : gset path;              (* the directories that exist *)
  files : gmap path string;      (* the regular files and their contents *)
  heap : gmap loc bgr_image      (* the colour buffers that were allocated *)
}.

Definition set_dirs (d : gset path) (w : world) : world :=
  mkWorld d (files w) (heap w).
Definition set_files (f : gmap path string) (w : world) : world :=
  mkWorld (dirs w) f (heap w).
Definition set_heap (h : gmap loc bgr_image) (w : world) : world :=
  mkWorld (dirs w) (files w) h.

(** ** Computations that read and write the world and may raise *)

Definition M (A : Type) : Type := world -> result A * world.

Definition ret {A} (a : A) : M A := fun w => (Ok a, w).
Definition raise {A} (e : exn) : M A := fun w => (Raise e, w).
Definition bind {A B} (m : M A) (f : A -> M B) : M B :=
  fun w => match m w with
           | (Ok a, w') => f a w'
           | (Raise e, w') => (Raise e, w')
           end.
Definition lift {A} (r : result A) : M A := fun w => (r, w).

Notation "'do' x <- m ; k" := (bind m (fun x => k))
  (at level 10, x binder, m at level 100, k at level 200).
Notation "m ;; k" := (bind m (fun _ => k))
  (at level 100, k at level 200, right associativity).

(** [for x in l: body x] *)
Fixpoint for_each {A} (l : list A) (body : A -> M unit) : M unit :=
  match l with
  | [] => ret tt
  | x :: l' => body x ;; for_each l' body
  end.

(** *** The [os] module *)

(** [os.path.exists(p)] *)
Definition exists_b (p : path) (w : world) : bool :=
  bool_decide (p ∈ dirs w) || bool_decide (is_Some (files w !! p)).

Definition os_path_exists (p : path) : M bool := fun w => (Ok (exists_b p w), w).

(** [os.mkdir(p)]: [p] must not exist and its parent must be a directory
    (the parent of a one-component relative path is the working directory). *)
Definition os_mkdir (p : path) : M unit := fun w =>
  if exists_b p w then (Raise OSError, w)
  else if bool_decide (dirname p = []) || bool_decide (dirname p ∈ dirs w)
       then (Ok tt, set_dirs ({[ p ]} ∪ dirs w) w)
       else (Raise OSError, w).

(** The non-empty proper prefixes of a path, shortest first. *)
Definition ancestors (p : path) : list path :=
  map (fun n => take n p) (seq 1 (length p - 1)).

(** [os.makedirs(p)]: the missing ancestors are made first, then [p] itself. *)
Definition os_makedirs (p : path) : M unit :=
  for_each (ancestors p)
    (fun q => do e <- os_path_exists q; if e then ret tt else os_mkdir q) ;;
  os_mkdir p.

(** Writing a file ([open(p, "w").write(s)] and the writers of the
    libraries): the parent must be a directory and [p] must not be one. *)
Definition writable (p : path) (w : world) : bool :=
  (bool_decide (dirname p = []) || bool_decide (dirname p ∈ dirs w))
  && negb (bool_decide (p ∈ dirs w)).

Definition write_file (p : path) (s : string) : M unit := fun w =>
  if writable p w
  then (Ok tt, set_files (<[ p := s ]> (files w)) w)
  else (Raise OSError, w).

(** *** Colour buffers *)

Definition alloc (img : bgr_image) : M loc := fun w =>
  let l := fresh (dom (heap w)) in
  (Ok l, set_heap (<[ l := img ]> (heap w)) w).

(** The contents of a buffer. *)
Definition deref (l : loc) (w : world) : bgr_image := default [] (heap w !! l).

Definition read (l : loc) : M bgr_image := fun w => (Ok (deref l w), w).

(** An update in place. *)
Definition modify (l : loc) (f : bgr_image -> bgr_image) : M unit := fun w =>
  (Ok tt, set_heap (<[ l := f (deref l w) ]> (heap w)) w).

(** ** [np.random.choice] *)

(** [np.random.choice(a)] on a list: an empty population raises
    [ValueError]; otherwise the generator draws an index below [len(a)].
    [r] is the raw draw of the generator. *)
Definition np_random_choice {A} (a : list A) (r : nat) : result A :=
  match a with
  | [] => Raise ValueError
  | x :: _ => Ok (nth (r mod length a) a x)
  end.

(** ** Python values *)

(** The values that reach a parameter of the program.  A URL is a string,
    but nothing in Python stops a caller from passing something else. *)
Inductive pyval : Type :=
| VStr (s : string)
| VInt (z : Z)
| VBool (b : bool)
| VModule (name : string)
| VFunction (qualname : string)
| VObject (class_name : string)
| VAttr (obj : pyval) (attr : string).   (* [obj.attr], e.g. a bound method *)

(** ** The libraries *)

(** The keyword arguments of [praw.Reddit(...)]. *)
Record praw_kwargs : Type := mk_praw_kwargs {
  kw_client_id : string;
  kw_client_secret : string;
  kw_password : string;
  kw_username : string;
  kw_user_agent : string
}.

(** A post as PRAW returns it.  The attributes are dynamic: [post_hint]
    and [preview] exist on some posts only.  [preview] holds, for every
    entry of [preview['images']], its [['source']['url']]. *)
Record submission : Type := mk_submission {
  post_hint : option string;
  preview : option (list string)
}.

(** How [urlretrieve] fails on a URL that it does not retrieve in full.
    [urlopen] may refuse the URL before anything is written: [ValueError]
    for an unknown URL type, [URLError] when the host cannot be reached.  Or
    the transfer breaks after the output file was opened: the bytes received
    so far are in the file when the exception is raised
    ([ContentTooShortError], a [URLError]). *)
Inductive failure : Type :=
| Refused (e : exn)
| Interrupted (received : string) (e : exn).

Record libs : Type := mk_libs {
  (* praw: the posts of [reddit.subreddit(name).<category>(limit = n)] *)
  listing : praw_kwargs -> string -> string -> nat -> result (list submission);
  (* urllib: the bytes behind a URL, [None] when the retrieval fails *)
  urlopen : string -> option string;
  (* urllib: how the retrieval fails, where [urlopen] is [None] *)
  url_failure : string -> failure;
  (* cv2.imread and cv2.imwrite: decoding and PNG encoding of a picture *)
  imdecode : string -> option bgr_image;
  imencode : bgr_image -> string;
  (* cv2.cvtColor(_, cv2.COLOR_BGR2GRAY) *)
  cvtColor_BGR2GRAY : bgr_image -> mask;
  (* cv2.erode and cv2.dilate: picture, kernel shape, iterations *)
  erode : mask -> nat * nat -> nat -> mask;
  dilate : mask -> nat * nat -> nat -> mask;
  (* cv2.findContours(_, cv2.RETR_EXTERNAL, cv2.CHAIN_APPROX_NONE) *)
  findContours : mask -> list contour;
  (* cv2.boundingRect *)
  boundingRect : contour -> rect;
  (* cv2.rectangle: picture, two corners, colour, thickness *)
  rectangle : bgr_image -> Z * Z -> Z * Z -> bgr -> Z -> bgr_image;
  (* pytesseract.image_to_string: picture, configuration *)
  image_to_string : mask -> string -> string;
  (* pytesseract.image_to_string: the exception it raises instead, if any *)
  tesseract_error : mask -> string -> option exn;
  (* the truth value of [a == b] for two different contour arrays *)
  ndarray_eq : contour -> contour -> result bool
}.

Definition newline : string := String (Ascii.ascii_of_nat 10) EmptyString.

(** [sep.join(l)] *)
Definition str_join (sep : string) (l : list string) : string := String.concat sep l.

Definition inspect {A : Type} (x : A) : { y : A | x = y } := exist _ x eq_refl.

(** ** class Image *)

Module Image.

Record t : Type := mk {
  url : pyval;
  uid : string;
  path : path;
  image : loc;
  image_path : list string;
  height : Z;
  width : Z;
  thresh : mask;
  contours : list contour;
  cropped_contours : list mask;
  contour_texts : list string
}.

Section WithLibs.
Variable L : libs.

(** [urllib.request.urlretrieve(url, filename)] *)
Definition urlretrieve (url : pyval) (filename : list string) : M unit :=
  match url with
  | VStr u =>
      match urlopen L u with
      | Some data => write_file filename data
      | None =>
          match url_failure L u with
          | Refused e => raise e
          | Interrupted received e => write_file filename received ;; raise e
          end
      end
  | _ => raise TypeError
  end.

(** [cv2.imread(filename)]: [None] when the file is missing or is not a
    picture, a new array otherwise. *)
Definition cv2_imread (filename : list string) : M (option loc) := fun w =>
  match files w !! filename with
  | Some data =>
      match imdecode L data with
      | Some img => (do l <- alloc img; ret (Some l)) w
      | None => (Ok None, w)
      end
  | None => (Ok None, w)
  end.

(** [cv2.imwrite(filename, img)]: [False], and no file, when the file cannot
    be opened. *)
Definition cv2_imwrite (filename : list string) (img : loc) : M bool :=
  do buf <- read img;
  fun w => match write_file filename (imencode L buf) w with
           | (Ok _, w') => (Ok true, w')
           | (Raise _, _) => (Ok false, w)
           end.

Definition make_if_missing (p : list string) : M unit :=
  do e <- os_path_exists p;
  if e then ret tt else os_makedirs p.

(** [save_image_from_url]: returns [self.image_path] and the value of
    [cv2.imread]. *)
Definition save_image_from_url (url : pyval) (uid : string) (self_path : list string)
  : M (list string * option loc) :=
  make_if_missing ["images"] ;;
  for_each ["input_images"; "output_images"; "output_texts"]
    (fun directory =>
       make_if_missing (os_path_join ["images"; uid] [directory])) ;;
  let image_path := os_path_join self_path ["input_images"; "input.png"] in
  urlretrieve url image_path ;;
  do image <- cv2_imread image_path;
  ret (image_path, image).

(** [w < self.width * .15].  Both operands are integers below 2^53 and
    [.15] is the double nearest to 3/20; the test is written here on exact
    rationals as [20 * w < 3 * width]. *)
Definition too_narrow (w self_width : Z) : bool := 20 * w <? 3 * self_width.

(** [contours.remove(contour)] where [contour] is the object at position
    [i] of the list.  [list.remove] scans from the left and takes out the
    first item that is the argument itself or compares equal to it; the
    items before position [i] are other arrays, compared with [==], whose
    truth value NumPy may refuse to give. *)
Fixpoint list_remove (i : nat) (x : contour) (l : list contour)
  : result (list contour) :=
  match l with
  | [] => Raise ValueError
  | y :: l' =>
      match i with
      | O => Ok l'
      | S i' =>
          match ndarray_eq L y x with
          | Raise e => Raise e
          | Ok true => Ok l'
          | Ok false =>
              match list_remove i' x l' with
              | Ok r => Ok (y :: r)
              | Raise e => Raise e
              end
          end
      end
  end.

(** The loop of [get_text_boxes]:
<<
    for contour in contours:
        [x,y,w,h] = cv2.boundingRect(contour)
        if h > w:
            contours.remove(contour)
            continue
        if  w < self.width * .15:
            contours.remove(contour)
            continue
    return contours
>>
    The list iterator keeps an index [i] into the list it walks, which the
    body shortens while the walk goes on.  The two tests guard the same
    statements, so they appear here as one disjunction. *)
Equations? narrow_down (self_width : Z) (i : nat) (contours : list contour)
  : result (list contour) by wf (length contours - i)%nat lt :=
  narrow_down self_width i contours with inspect (contours !! i) := {
    | exist _ None _ => Ok contours
    | exist _ (Some c) Hc with boundingRect L c := {
        | (x, y, w, h) with (h >? w) || too_narrow w self_width := {
            | true with inspect (list_remove i c contours) := {
                | exist _ (Raise e) _ => Raise e
                | exist _ (Ok contours') Hr =>
                    narrow_down self_width (S i) contours' }
            | false => narrow_down self_width (S i) contours } } }.
Proof.
  - assert (Hlen : forall l j r,
               list_remove j c l = Ok r -> length l = S (length r)).
    { induction l as [|a l IH]; intros [|j] r; simpl; try congruence.
      destruct (ndarray_eq L a c) as [[]|]; try congruence.
      destruct (list_remove j c l) eqn:E; try congruence.
      intros Heq. injection Heq as <-. simpl. f_equal. eauto. }
    apply Hlen in Hr. apply lookup_lt_Some in Hc. lia.
  - apply lookup_lt_Some in Hc. lia.
Qed.

(** [get_text_boxes]: returns [self.thresh], which it sets, and the
    contours.  [self.image] is the array read by [cv2.imread]. *)
Definition get_text_boxes (self_image : loc) (self_width : Z)
  : M (mask * list contour) :=
  do img <- read self_image;
  let gray := cvtColor_BGR2GRAY L img in
  let thresh := threshold_step gray in
  let erosion := erode L thresh (1, 5)%nat 1%nat in
  let dilated := dilate L erosion (7, 7)%nat 4%nat in
  let contours := findContours L dilated in
  do contours <- lift (narrow_down self_width 0 contours);
  ret (thresh, contours).

(** [crop_contours] *)
Definition crop (self_thresh : mask) (c : contour) : mask :=
  let '(x, y, w, h) := boundingRect L c in
  ndarray_slice2 self_thresh y (y + h) x (x + w).

Definition crop_contours (self_thresh : mask) (self_contours : list contour)
  : result (list mask) :=
  match self_contours with
  | [] => Raise AssertionError
  | _ => Ok (map (crop self_thresh) self_contours)
  end.

(** [get_contour_texts] *)
Definition ocr (config : string) (image : mask) : string :=
  let dilated := dilate L image (2, 2)%nat 1%nat in
  image_to_string L dilated config.

Definition default_config : string := "-l eng --oem 1 --psm 3".

(** One turn of the loop: the text, unless Tesseract raises. *)
Definition read_text (config : string) (image : mask) : result string :=
  match tesseract_error L (dilate L image (2, 2)%nat 1%nat) config with
  | Some e => Raise e
  | None => Ok (ocr config image)
  end.

Fixpoint read_texts (config : string) (images : list mask) : result (list string) :=
  match images with
  | [] => Ok []
  | image :: images' =>
      match read_text config image with
      | Raise e => Raise e
      | Ok text =>
          match read_texts config images' with
          | Raise e => Raise e
          | Ok texts => Ok (text :: texts)
          end
      end
  end.

Definition get_contour_texts (self_path : list string)
    (self_cropped_contours : list mask) (config : string) (save : bool)
  : M (list string) :=
  do texts <- lift (read_texts config self_cropped_contours);
  (if save
   then write_file (os_path_join self_path ["output_texts"; "text.txt"])
                   (str_join newline texts)
   else ret tt) ;;
  ret texts.

(** [__init__] *)
Definition __init__ (url : pyval) (uuid4 : string) : M t :=
  let uid := uuid4 in
  let path := os_path_join ["images"] [uid] in
  do '(image_path, image) <- save_image_from_url url uid path;
  match image with
  | None => raise AttributeError     (* [None] has no attribute [shape] *)
  | Some image =>
      do img <- read image;
      let '(height, width) := shape img in
      do '(thresh, contours) <- get_text_boxes image width;
      do cropped_contours <- lift (crop_contours thresh contours);
      do contour_texts <- get_contour_texts path cropped_contours default_config true;
      ret (mk url uid path image image_path height width thresh contours
              cropped_contours contour_texts)
  end.

(** [draw_contours] *)
Definition green : bgr := (0, 255, 0).

Definition draw_contours (self : t) (save : bool) : M unit :=
  do img <- read (image self);
  do copy <- alloc img;
  for_each (contours self)
    (fun contour =>
       let '(x, y, w, h) := boundingRect L contour in
       modify copy (fun buf => rectangle L buf (x, y) (x + w, y + h) green 2)) ;;
  if save
  then
    let output_path := os_path_join (path self) ["output_images"; "contours.png"] in
    cv2_imwrite output_path copy ;; ret tt
  else ret tt.

End WithLibs.
End Image.

(** ** class Reddit *)

Module Reddit.

Record t : Type := mk {
  username : string;
  password : string;
  client_id : string;
  client_secret : string;
  user_agent : string;
  reddit : praw_kwargs;                   (* the [praw.Reddit] instance *)
  image_urls : option (list string)       (* set by [scrape_sub_pictures] *)
}.

(** [_initialize]: the [praw.Reddit] instance, given by the keyword
    arguments it is built from. *)
Definition _initialize (self_username self_password self_client_id
                         self_client_secret self_user_agent : string)
  : praw_kwargs :=
  {| kw_client_id := self_username;
     kw_client_secret := self_client_secret;
     kw_password := self_password;
     kw_username := self_username;
     kw_user_agent := self_user_agent |}.

(** [__init__] *)
Definition __init__ (username password client_id client_secret user_agent : string)
  : t :=
  mk username password client_id client_secret user_agent
     (_initialize username password client_id client_secret user_agent)
     None.

Section WithLibs.
Variable L : libs.

(** [post.preview['images'][0]['source']['url']] *)
Definition source_url (post : submission) : result string :=
  match preview post with
  | None => Raise AttributeError
  | Some [] => Raise LookupError
  | Some (u :: _) => Ok u
  end.

Fixpoint map_result {A B} (f : A -> result B) (l : list A) : result (list B) :=
  match l with
  | [] => Ok []
  | x :: l' =>
      match f x with
      | Raise e => Raise e
      | Ok y => match map_result f l' with
                | Raise e => Raise e
                | Ok ys => Ok (y :: ys)
                end
      end
  end.

(** [scrape_sub_pictures] *)
Definition scrape_sub_pictures (self : t) (subreddit sub_category : string) (n : nat)
  : result t :=
  match listing L (reddit self) subreddit sub_category n with
  | Raise e => Raise e
  | Ok posts =>
      let posts :=
        filter (fun post => post_hint post = Some "image") posts in
      match map_result source_url posts with
      | Raise e => Raise e
      | Ok image_urls =>
          Ok (mk (username self) (password self) (client_id self)
                 (client_secret self) (user_agent self) (reddit self)
                 (Some image_urls))
      end
  end.

(** [get_random_url]; [r] is the draw of NumPy's generator. *)
Definition get_random_url (self : t) (r : nat) : result string :=
  match image_urls self with
  | None => Raise AttributeError
  | Some urls => np_random_choice urls r
  end.

(** The body of [ocr_meme], run with [url] bound to the value the call
    supplies for it. *)
Definition ocr_meme (self : t) (url : pyval) (uuid4 : string) : M unit :=
  do image <- Image.__init__ L url uuid4;
  Image.draw_contours L image true.

End WithLibs.
End Reddit.

(** ** The module: what running [main.py] executes *)

(** A [def] statement evaluates the default values of its parameters when
    it is executed, in the scope that encloses it; inside a [class] block
    that scope is the namespace of the class body so far, then the globals
    of the module, then the builtins. *)

Inductive expr : Type :=
| EConst (v : pyval)
| EName (x : string)
| EAttribute (e : expr) (attr : string).

Abbreviation namespace := (list (string * pyval)).

Fixpoint lookup_name (x : string) (ns : namespace) : option pyval :=
  match ns with
  | [] => None
  | (y, v) :: ns' => if String.eqb x y then Some v else lookup_name x ns'
  end.

Fixpoint resolve (x : string) (scopes : list namespace) : result pyval :=
  match scopes with
  | [] => Raise NameError
  | ns :: scopes' =>
      match lookup_name x ns with
      | Some v => Ok v
      | None => resolve x scopes'
      end
  end.

Fixpoint eval (scopes : list namespace) (e : expr) : result pyval :=
  match e with
  | EConst v => Ok v
  | EName x => resolve x scopes
  | EAttribute e' attr =>
      match eval scopes e' with
      | Ok v => Ok (VAttr v attr)
      | Raise err => Raise err
      end
  end.

(** [def name(..., p = e, ...)]: the name and the parameters with a default. *)
Record def_stmt : Type := mk_def {
  def_name : string;
  def_defaults : list (string * expr)
}.

(** A function object: its name and the default values it was given. *)
Record function : Type := mk_function {
  fn_name : string;
  fn_defaults : list (string * pyval)
}.

Fixpoint eval_defaults (scopes : list namespace) (ds : list (string * expr))
  : result (list (string * pyval)) :=
  match ds with
  | [] => Ok []
  | (p, e) :: ds' =>
      match eval scopes e with
      | Raise err => Raise err
      | Ok v =>
          match eval_defaults scopes ds' with
          | Raise err => Raise err
          | Ok vs => Ok ((p, v) :: vs)
          end
      end
  end.

(** The body of a [class] statement whose statements are all [def]s. *)
Fixpoint exec_class_body (class_name : string) (outer : list namespace)
    (local : namespace) (body : list def_stmt) : result (list function) :=
  match body with
  | [] => Ok []
  | d :: body' =>
      match eval_defaults (local :: outer) (def_defaults d) with
      | Raise err => Raise err
      | Ok vs =>
          let f := mk_function (def_name d) vs in
          let local' :=
            (def_name d, VFunction (class_name ++ "." ++ def_name d)) :: local in
          match exec_class_body class_name outer local' body' with
          | Raise err => Raise err
          | Ok fs => Ok (f :: fs)
          end
      end
  end.

(** The default value of parameter [p] of method [m]. *)
Definition default_of (cls : list function) (m p : string) : result pyval :=
  match List.find (fun f => String.eqb (fn_name f) m) cls with
  | None => Raise AttributeError
  | Some f =>
      match lookup_name p (fn_defaults f) with
      | Some v => Ok v
      | None => Raise TypeError    (* a required argument is missing *)
      end
  end.

(** The builtins that [main.py] refers to. *)
Definition builtins : namespace :=
  map (fun x => (x, VFunction x))
      ["list"; "getattr"; "dir"; "str"; "open"].

(** The globals after the [import] statements. *)
Definition imports : namespace :=
  [("os", VModule "os"); ("cv2", VModule "cv2"); ("math", VModule "math");
   ("uuid", VModule "uuid"); ("praw", VModule "praw");
   ("urllib", VModule "urllib"); ("pytesseract", VModule "pytesseract");
   ("np", VModule "numpy")].

(** [class Reddit():] *)
Definition Reddit_body : list def_stmt :=
  [ mk_def "__init__" [("user_agent", EConst (VStr "required"))];
    mk_def "_initialize" [];
    mk_def "scrape_sub_pictures"
      [("sub_category", EConst (VStr "hot")); ("n", EConst (VInt 100))];
    mk_def "get_random_url" [];
    mk_def "ocr_meme" [("url", EAttribute (EName "self") "get_random_url")] ].

(** [class Image():] *)
Definition Image_body : list def_stmt :=
  [ mk_def "__init__" [];
    mk_def "save_image_from_url" [];
    mk_def "get_text_boxes" [];
    mk_def "crop_contours" [];
    mk_def "draw_contours" [("save", EConst (VBool true))];
    mk_def "get_contour_texts"
      [("config", EConst (VStr "-l eng --oem 1 --psm 3"));
       ("save", EConst (VBool true))] ].

Definition class_Reddit : result (list function) :=
  exec_class_body "Reddit" [imports; builtins] [] Reddit_body.

Definition class_Image : result (list function) :=
  exec_class_body "Image"
    [("Reddit", VObject "type") :: imports; builtins] [] Image_body.

Definition credential : string := "###################".

(** The whole script: the two [class] statements, then the block under
    [if __name__ == "__main__"], whose call [reddit.ocr_meme()] binds [url]
    to the default stored in the function. *)
Definition main (L : libs) (uuid4 : string) : M unit :=
  do Reddit_class <- lift class_Reddit;
  do Image_class <- lift class_Image;
  let reddit :=
    Reddit.__init__ credential credential credential credential "required" in
  do reddit <- lift (Reddit.scrape_sub_pictures L reddit "adviceanimals" "hot" 100);
  do url <- lift (default_of Reddit_class "ocr_meme" "url");
  Reddit.ocr_meme L reddit url uuid4.

(** ** Reading the text file back *)

Definition newline_char : Ascii.ascii := Ascii.ascii_of_nat 10.

(** [s.split('\n')]: the blocks of [s] between newlines. *)
Fixpoint split_lines (s : string) : list string :=
  match s with
  | EmptyString => [EmptyString]
  | String c s' =>
      if Ascii.eqb c newline_char then EmptyString :: split_lines s'
      else match split_lines s' with
           | [] => [String c EmptyString]
           | b :: bs => String c b :: bs
           end
  end.

Fixpoint has_newline (s : string) : bool :=
  match s with
  | EmptyString => false
  | String c s' => Ascii.eqb c newline_char || has_newline s'
  end.

(** ** The properties as the specification words them *)

(** The mask the specification expects for a pixel of luminance [p]:
    foreground from 250 on. *)
Definition spec_mask_pixel (p : Z) : Z := if 250 <=? p then 255 else 0.

(** The acceptance criterion of a Region: at least as wide as tall, and at
    least 15% of the picture's width. *)
Definition spec_accepted (r : rect) (image_width : Z) : Prop :=
  let '(x, y, w, h) := r in h <= w /\ 3 * image_width <= 20 * w.

(** A run identifier is fresh when nothing exists yet under
    [images/<run-id>]. *)
Definition fresh_run (uid : string) (w : world) : Prop :=
  forall p : path, ["images"; uid] `prefix_of` p ->
    (p ∉ dirs w) /\ (files w !! p = None).

(** The three files of a run. *)
Definition input_png (uid : string) : path :=
  ["images"; uid; "input_images"; "input.png"].
Definition contours_png (uid : string) : path :=
  ["images"; uid; "output_images"; "contours.png"].
Definition text_txt (uid : string) : path :=
  ["images"; uid; "output_texts"; "text.txt"].

(** The picture [draw_contours] produces from [img]. *)
Definition annotate (L : libs) (cs : list contour) (img : bgr_image) : bgr_image :=
  fold_left
    (fun buf c =>
       let '(x, y, w, h) := boundingRect L c in
       rectangle L buf (x, y) (x + w, y + h) (0, 255, 0) 2)
    cs img.

(** The mask [get_text_boxes] keeps in [self.thresh]: the thresholded
    grayscale picture, before erosion and dilation. *)
Definition thresh_of (L : libs) (buf : bgr_image) : mask :=
  threshold_step (cvtColor_BGR2GRAY L buf).

(** The contours the libraries find in the picture [buf], before the loop
    narrows them down. *)
Definition found_in (L : libs) (buf : bgr_image) : list contour :=
  findContours L
    (dilate L (erode L (thresh_of L buf) (1, 5)%nat 1%nat) (7, 7)%nat 4%nat).

(** A step that only makes directories, each a prefix of a path of [ps]. *)
Definition makes_dirs (ps : list path) (w w' : world) : Prop :=
  files w' = files w /\ heap w' = heap w /\ dirs w ⊆ dirs w'
  /\ forall q : path, q ∈ dirs w' -> q ∈ dirs w \/ exists p, p ∈ ps /\ q `prefix_of` p.

(** ** An instance of the libraries, to run the model on concrete inputs *)

Module Sample.

(** The upright bounding rectangle of a set of integer points. *)
Definition bounding (c : contour) : rect :=
  match c with
  | [] => (0, 0, 0, 0)
  | (x0, y0) :: _ =>
      let xs := map fst c in
      let ys := map snd c in
      let x1 := fold_right Z.min x0 xs in
      let x2 := fold_right Z.max x0 xs in
      let y1 := fold_right Z.min y0 ys in
      let y2 := fold_right Z.max y0 ys in
      (x1, y1, x2 - x1 + 1, y2 - y1 + 1)
  end.

(** [a == b] on arrays of shapes (n,1,2) and (m,1,2): when the shapes
    broadcast the result is an array of several booleans, which has no truth
    value; when they do not, older NumPy answers [False]. *)
Definition array_eq (a b : contour) : result bool :=
  if (length a =? length b)%nat || (length a =? 1)%nat || (length b =? 1)%nat
  then Raise ValueError
  else Ok false.

(** The outline of the box with corner [(x, y)], [w] wide and [h] tall. *)
Definition box (x y w h : Z) : contour :=
  [(x, y); (x + w - 1, y); (x + w - 1, y + h - 1); (x, y + h - 1)].

(** A white picture of [rows] by [cols] pixels. *)
Definition white (rows cols : nat) : bgr_image :=
  repeat (repeat (255, 255, 255) cols) rows.

(** Libraries under which every download is a white picture of 6 by 20
    pixels, contour extraction finds [found], and the OCR engine reads
    [text] in every crop. *)
Definition lib (found : list contour) (text : string) : libs :=
  {| listing := fun _ _ _ _ => Ok [];
     urlopen := fun _ => Some "PNG";
     url_failure := fun _ => Refused URLError;
     imdecode := fun _ => Some (white 6 20);
     imencode := fun _ => "PNG";
     cvtColor_BGR2GRAY := map (map (fun '(b, g, r) => (b + g + r) / 3));
     erode := fun m _ _ => m;
     dilate := fun m _ _ => m;
     findContours := fun _ => found;
     boundingRect := bounding;
     rectangle := fun img _ _ _ _ => img;
     image_to_string := fun _ _ => text;
     tesseract_error := fun _ _ => None;
     ndarray_eq := array_eq |}.

Definition empty_world : world := mkWorld ∅ ∅ ∅.

(** Two blobs side by side in a picture 100 wide, each 26 wide and 54
    tall. *)
Definition tall1 : contour := box 0 3 26 54.
Definition tall2 : contour := box 50 3 26 54.

Definition bar : contour := box 4 1 12 2.

Definition two_lines : string := "ONE" ++ newline ++ "TWO".

(** The libraries of a run that finds the caption bar and reads two lines
    in it, and of a run that finds one strip only. *)
Definition caption : libs := lib [bar] two_lines.

(** [Image("u")] and [reddit.ocr_meme("u")] in an empty world, with run
    identifier [run]: a run that finds the caption, and one that finds the
    strip. *)
Definition init_run : result Image.t * world :=
  Image.__init__ caption (VStr "u") "run" empty_world.


Definition meme_run : result unit * world :=
  Reddit.ocr_meme caption (Reddit.__init__ "u" "p" "i" "s" "required")
    (VStr "u") "run" empty_world.

(** An [Image] object whose picture was decoded into buffer 0, and a world
    that holds this buffer and the directory for the annotated picture. *)
Definition self : Image.t :=
  Image.mk (VStr "u") "run" ["images"; "run"] 0%nat
    ["images"; "run"; "input_images"; "input.png"] 6 20 [] [bar] [] [].

Definition drawing_world : world :=
  mkWorld {[ ["images"; "run"; "output_images"] ]} ∅ {[ 0%nat := white 6 20 ]}.

End Sample.

(** ** Further definitions *)

(** A post that [scrape_sub_pictures] keeps: its [post_hint] is [image]. *)
Definition is_image_post (post : submission) : Prop := post_hint post = Some "image".

(** [url] is the source URL of the first preview image of [post]. *)
Definition first_source (post : submission) (url : string) : Prop :=
  exists rest : list string, preview post = Some (url :: rest).

(** The test of the loop of [get_text_boxes] on one contour: [h > w], or
    [w < self.width * .15]. *)
Definition rejected (L : libs) (self_width : Z) (c : contour) : bool :=
  let '(x, y, w, h) := boundingRect L c in
  (h >? w) || Image.too_narrow w self_width.

(** No contour that the test rejects is directly followed by another one. *)
Definition no_adjacent_rejected (L : libs) (self_width : Z) (l : list contour) : Prop :=
  forall (j : nat) (c c' : contour),
    l !! j = Some c -> l !! S j = Some c' ->
    rejected L self_width c = true -> rejected L self_width c' = false.

(** A computation that writes no file, whatever its outcome. *)
Definition keeps_files {A} (m : M A) : Prop :=
  forall w : world, files (snd (m w)) = files w.

(** A computation that raises and writes no file. *)
Definition fails_quietly {A} (m : M A) : Prop :=
  forall w : world, is_Ok (fst (m w)) = false /\ files (snd (m w)) = files w.

(** How [urlretrieve] fails on [url], if it does.  A URL that is no string
    is refused with [TypeError] when its scheme is looked up, before anything
    is opened. *)
Definition fetch_failure (L : libs) (url : pyval) : option failure :=
  match url with
  | VStr u =>
      match urlopen L u with
      | Some _ => None
      | None => Some (url_failure L u)
      end
  | _ => Some (Refused TypeError)
  end.

(** The exception of a failed retrieval. *)
Definition failure_exn (f : failure) : exn :=
  match f with
  | Refused e => e
  | Interrupted _ e => e
  end.

(** The files after a failed retrieval into [p]. *)
Definition failure_files (f : failure) (p : path) (fs : gmap path string)
  : gmap path string :=
  match f with
  | Refused _ => fs
  | Interrupted received _ => <[ p := received ]> fs
  end.


(** NumPy answers [False] whenever a contour of [l] that the test rejects is
    compared with a contour before it in [l]: [contours.remove] then walks
    on to the rejected contour itself. *)
Definition earlier_differ (L : libs) (self_width : Z) (l : list contour) : Prop :=
  forall (j i : nat) (a c : contour),
    (j < i)%nat -> l !! j = Some a -> l !! i = Some c ->
    rejected L self_width c = true -> ndarray_eq L a c = Ok false.

(** [w'] is [w] with the directories [ds] added. *)
Definition adds_dirs (ds : gset path) (w w' : world) : Prop :=
  files w' = files w /\ heap w' = heap w /\ dirs w' = ds ∪ dirs w.

(** The directories of a run: [images], [images/<run-id>] and the three
    directories below it. *)
Definition run_dirs (uid : string) : gset path :=
  {[ ["images"; uid; "output_texts"] ]} ∪
  ({[ ["images"; uid; "output_images"] ]} ∪
   ({[ ["images"; uid; "input_images"] ]} ∪
    ({[ ["images"; uid] ]} ∪ {[ ["images"] ]}))).

Module Examples.

(** [L] with the feed replaced by one that lists [posts]. *)
Definition with_listing (posts : list submission) (L : libs) : libs :=
  mk_libs (fun _ _ _ _ => Ok posts) (urlopen L) (url_failure L) (imdecode L)
    (imencode L) (cvtColor_BGR2GRAY L) (erode L) (dilate L) (findContours L)
    (boundingRect L) (rectangle L) (image_to_string L) (tesseract_error L)
    (ndarray_eq L).

(** Two image posts, a text post and a link. *)
Definition posts : list submission :=
  [ mk_submission (Some "image") (Some ["http://i/1.png"; "http://i/1s.png"]);
    mk_submission None None;
    mk_submission (Some "link") (Some ["http://i/2.png"]);
    mk_submission (Some "image") (Some ["http://i/3.png"]) ].

Definition feed : libs := with_listing posts Sample.caption.

(** A feed without image posts. *)
Definition text_posts : list submission :=
  [ mk_submission None None; mk_submission (Some "link") (Some ["http://i/2.png"]) ].

Definition text_feed : libs := with_listing text_posts Sample.caption.

Definition reddit : Reddit.t := Reddit.__init__ "u" "p" "i" "s" "required".

(** [Sample.caption] without a working network: a URL without a scheme is
    an unknown URL type, the host [i] cannot be reached, and the transfer
    from the host [j] breaks after two bytes. *)
Definition offline : libs :=
  let L := Sample.caption in
  mk_libs (listing L) (fun _ => None)
    (fun u => if String.prefix "http://j/" u then Interrupted "PN" URLError
              else if String.prefix "http://" u then Refused URLError
              else Refused ValueError)
    (imdecode L) (imencode L)
    (cvtColor_BGR2GRAY L) (erode L) (dilate L) (findContours L) (boundingRect L)
    (rectangle L) (image_to_string L) (tesseract_error L) (ndarray_eq L).

(** [Sample.caption] with downloads that are not pictures. *)
Definition garbled : libs :=
  let L := Sample.caption in
  mk_libs (listing L) (urlopen L) (url_failure L) (fun _ => None) (imencode L)
    (cvtColor_BGR2GRAY L) (erode L) (dilate L) (findContours L) (boundingRect L)
    (rectangle L) (image_to_string L) (tesseract_error L) (ndarray_eq L).

(** The outline of a blob 3 wide and 6 tall with a notch, in six points. *)
Definition notched : contour := [(0, 0); (0, 5); (2, 5); (2, 4); (1, 4); (1, 0)].

(** A caption bar, the notched blob, and another caption bar. *)
Definition mixed : list contour := [Sample.bar; notched; Sample.box 2 4 14 2].

(** A mask of 6 by 20 pixels, all foreground. *)
Definition solid : mask := repeat (repeat 255 20%nat) 6%nat.

(** A world that holds the picture of [Sample.self] and no directory. *)
Definition bare_world : world := mkWorld ∅ ∅ {[ 0%nat := Sample.white 6 20 ]}.

End Examples.

(** ** Libraries that compute the morphology *)

Module Morphology.

(** The items of [l] at the positions [i - before] to [i - before + len - 1],
    as far as they exist. *)
Definition around {A} (l : list A) (i before len : nat) : list A :=
  take (len - (before - i))%nat (drop (i - before)%nat l).

(** [cv2.erode] and [cv2.dilate] with the kernel [np.ones((rows, cols))],
    anchored at its centre: a pixel becomes the minimum, or the maximum, of
    the pixels under the kernel; positions outside the picture do not count
    (the default border of both functions). *)
Definition morph (op : Z -> Z -> Z) (neutral : Z) (kernel : nat * nat) (src : mask)
  : mask :=
  let '(rows, cols) := kernel in
  imap (fun y row =>
          imap (fun x _ =>
                  foldr op neutral
                    (concat (map (fun r => around r x (cols / 2)%nat cols)
                               (around src y (rows / 2)%nat rows))))
            row)
    src.

Definition cv2_erode (src : mask) (kernel : nat * nat) (iterations : nat) : mask :=
  Nat.iter iterations (morph Z.min 255 kernel) src.

Definition cv2_dilate (src : mask) (kernel : nat * nat) (iterations : nat) : mask :=
  Nat.iter iterations (morph Z.max 0 kernel) src.

(** [cv2.cvtColor(image, cv2.COLOR_BGR2GRAY)] on an 8-bit pixel: the
    weights 0.114, 0.587 and 0.299 in fixed point, rounded. *)
Definition gray (p : bgr) : Z :=
  let '(b, g, r) := p in (b * 1868 + g * 9617 + r * 4899 + 8192) / 16384.


(** The positions of [l], counted from [i], that hold [true]. *)
Fixpoint positions (i : Z) (l : list bool) : list Z :=
  match l with
  | [] => []
  | b :: l' => if b then i :: positions (i + 1) l' else positions (i + 1) l'
  end.

(** The upright rectangle around the foreground of [m], if there is one. *)
Definition extent (m : mask) : option rect :=
  let ys := positions 0 (map (existsb (fun v => negb (v =? 0))) m) in
  let xs := positions 0 (map (fun j => existsb (fun row => negb (nth j row 0 =? 0)) m)
                           (seq 0 (length (hd [] m)))) in
  match xs, ys with
  | x :: _, y :: _ => Some (x, y, List.last xs x - x + 1, List.last ys y - y + 1)
  | _, _ => None
  end.

(** The pixels on the border of the rectangle [r], at least 2 wide and 2
    tall: from the top left corner down the left side, along the bottom, up
    the right side and back along the top. *)
Definition outline (r : rect) : contour :=
  let '(x, y, w, h) := r in
  map (fun j => (x, j)) (seqZ y h)
  ++ map (fun i => (i, y + h - 1)) (seqZ (x + 1) (w - 1))
  ++ map (fun j => (x + w - 1, j)) (reverse (seqZ y (h - 1)))
  ++ map (fun i => (i, y)) (reverse (seqZ (x + 1) (w - 2))).

(** [cv2.findContours(m, cv2.RETR_EXTERNAL, cv2.CHAIN_APPROX_NONE)] for a
    mask that is empty or whose foreground is one filled upright rectangle:
    no contour, or the one that runs along the border of the rectangle.
    Other masks are outside this definition. *)
Definition cv2_findContours (m : mask) : list contour :=
  match extent m with
  | Some r => [outline r]
  | None => []
  end.

(** Libraries that serve one picture at every [http] address, compute the
    grey levels, the erosion and the dilation, and read no text. *)
Definition lib (picture : bgr_image) : libs :=
  {| listing := fun _ _ _ _ => Ok [];
     urlopen := fun u => if String.prefix "http://" u then Some "PNG" else None;
     url_failure := fun _ => Refused ValueError;
     imdecode := fun _ => Some picture;
     imencode := fun _ => "PNG";
     cvtColor_BGR2GRAY := map (map gray);
     erode := cv2_erode;
     dilate := cv2_dilate;
     findContours := cv2_findContours;
     boundingRect := Sample.bounding;
     rectangle := fun img _ _ _ _ => img;
     image_to_string := fun _ _ => EmptyString;
     tesseract_error := fun _ _ => None;
     ndarray_eq := Sample.array_eq |}.




End Morphology.

(** * Properties *)

(** ** Thresholding *)

Lemma lookup_map {A B} (f : A -> B) (l : list A) (i : nat) :
  map f l !! i = f <$> (l !! i).
Proof.
  revert i; induction l as [|a l IH]; intros [|i]; simpl; auto.
Qed.

Lemma threshold_step_map (gray : mask) :
  threshold_step gray = map (map (fun p => if p >? 250 then 255 else 0)) gray.
Proof.
  unfold threshold_step, cv2_threshold. rewrite map_map.
  apply map_ext. intros row. rewrite map_map.
  apply map_ext. intros p. unfold threshold_pixel.
  destruct (p >? 250); reflexivity.
Qed.

Lemma pixel_map (f : Z -> Z) (m : mask) (r c : nat) :
  pixel (map (map f) m) r c = f <$> pixel m r c.
Proof.
  unfold pixel. rewrite lookup_map.
  destruct (m !! r) as [row|]; simpl; [apply lookup_map | reflexivity].
Qed.

(** C5 (as amended): after the thresholding step a pixel is 255 exactly
    when its luminance is above 250, that is from 251 on, and 0 otherwise;
    the mask has a pixel wherever the grayscale picture has one. *)
Theorem threshold_step_foreground (gray : mask) (r c : nat) :
  pixel (threshold_step gray) r c
  = (fun p => if p >? 250 then 255 else 0) <$> pixel gray r c.
Proof. rewrite threshold_step_map. apply pixel_map. Qed.

(** C5 (as stated) fails on a pixel of luminance exactly 250: the
    specification counts it as foreground, the code leaves it in the
    background. *)
Lemma threshold_step_250_is_background :
  pixel [[250]] 0 0 = Some 250 /\
  spec_mask_pixel 250 = 255 /\
  pixel (threshold_step [[250]]) 0 0 = Some 0 /\
  pixel (threshold_step [[250]]) 0 0 <> spec_mask_pixel <$> pixel [[250]] 0 0.
Proof. repeat split; try reflexivity. discriminate. Qed.

(** ** Picking a URL *)

(** C7: on an empty list of URLs [get_random_url] raises ([ValueError],
    from [np.random.choice]); on a list of one URL it returns that URL
    whatever the generator draws. *)
Theorem get_random_url_empty_and_singleton
    (username password client_id client_secret user_agent : string)
    (reddit : praw_kwargs) (r : nat) :
  Reddit.get_random_url
    (Reddit.mk username password client_id client_secret user_agent reddit (Some [])) r
  = Raise ValueError
  /\ forall url : string,
      Reddit.get_random_url
        (Reddit.mk username password client_id client_secret user_agent reddit
           (Some [url])) r
      = Ok url.
Proof.
  split; [reflexivity|].
  intros url. unfold Reddit.get_random_url, np_random_choice. simpl.
  reflexivity.
Qed.

(** ** The PRAW client *)

(** C3: the [praw.Reddit] instance of every [Reddit] object gets the
    username as its [client_id]; the [client_id] given to the constructor is
    stored on the object and reaches no argument of [praw.Reddit]. *)
Theorem client_id_is_username
    (username password client_id client_secret user_agent : string) :
  let self := Reddit.__init__ username password client_id client_secret user_agent in
  kw_client_id (Reddit.reddit self) = username
  /\ Reddit.client_id self = client_id
  /\ forall client_id' : string,
      Reddit.reddit
        (Reddit.__init__ username password client_id' client_secret user_agent)
      = Reddit.reddit self.
Proof. repeat split. Qed.

(** ** Running the script *)

Lemma class_Reddit_raises : class_Reddit = Raise NameError.
Proof. reflexivity. Qed.

(** With [self] bound to a [Reddit] object in the enclosing scope, the
    default of [url] would be the method object itself: the expression
    contains no call. *)
Lemma url_default_is_method (self : pyval) :
  eval [[("self", self)]; imports; builtins]
       (EAttribute (EName "self") "get_random_url")
  = Ok (VAttr self "get_random_url").
Proof. reflexivity. Qed.

(** C2 (the code departs from it): [main.py] stops with [NameError] while
    the [class Reddit] statement is executed, because the default value
    [self.get_random_url] of [url] is evaluated there, where no [self] is
    bound.  Nothing was downloaded or written, no URL was drawn and no
    [Image] was made. *)
Theorem main_raises_NameError (L : libs) (uuid4 : string) (w : world) :
  main L uuid4 w = (Raise NameError, w).
Proof. reflexivity. Qed.

(** ** Narrowing down the contours *)

Section Narrowing.
Variable L : libs.

(** One turn of the loop. *)
Lemma narrow_down_eq (self_width : Z) (i : nat) (contours : list contour) :
  Image.narrow_down L self_width i contours =
  match contours !! i with
  | None => Ok contours
  | Some c =>
      let '(x, y, w, h) := boundingRect L c in
      if (h >? w) || Image.too_narrow w self_width
      then match Image.list_remove L i c contours with
           | Raise e => Raise e
           | Ok contours' => Image.narrow_down L self_width (S i) contours'
           end
      else Image.narrow_down L self_width (S i) contours
  end.
Proof.
  funelim (Image.narrow_down L self_width i contours); clear Heqcall;
    repeat match goal with
      | H : ?a = _ |- context [?a] => rewrite H
      end; reflexivity.
Qed.

(** A contour that follows a removed one is never looked at: when the
    first contour is removed, the second one stays whatever its shape. *)
Lemma narrow_down_skips (self_width : Z) (c1 c2 : contour) (x y w h : Z) :
  boundingRect L c1 = (x, y, w, h) ->
  (h >? w) || Image.too_narrow w self_width = true ->
  Image.narrow_down L self_width 0 [c1; c2] = Ok [c2].
Proof.
  intros Hb Hr. rewrite narrow_down_eq. simpl. rewrite Hb, Hr.
  rewrite narrow_down_eq. reflexivity.
Qed.


End Narrowing.

(** C1 (the code departs from it): of two blobs taller than wide the loop
    removes the first and never looks at the second, which it returns: a
    Region 26 wide and 54 tall. *)
Theorem narrow_down_keeps_second_tall :
  Image.narrow_down (Sample.lib [] "") 100 0 [Sample.tall1; Sample.tall2]
  = Ok [Sample.tall2]
  /\ boundingRect (Sample.lib [] "") Sample.tall2 = (50, 3, 26, 54)
  /\ ~ spec_accepted (boundingRect (Sample.lib [] "") Sample.tall2) 100.
Proof.
  split; [|split].
  - apply (narrow_down_skips _ _ _ _ 0 3 26 54); reflexivity.
  - reflexivity.
  - simpl. lia.
Qed.

(** ** Reasoning about computations *)

Lemma bind_Ok {A B} (m : M A) (f : A -> M B) (w w' : world) (b : B) :
  bind m f w = (Ok b, w') ->
  exists a w1, m w = (Ok a, w1) /\ f a w1 = (Ok b, w').
Proof.
  unfold bind. destruct (m w) as [[a|e] w1]; [eauto | discriminate].
Qed.

Lemma bind_Raise {A B} (m : M A) (f : A -> M B) (w w1 : world) (e : exn) :
  m w = (Raise e, w1) -> bind m f w = (Raise e, w1).
Proof. unfold bind. intros ->. reflexivity. Qed.

Lemma bind_step {A B} (m : M A) (f : A -> M B) (w w1 : world) (a : A) :
  m w = (Ok a, w1) -> bind m f w = f a w1.
Proof. unfold bind. intros ->. reflexivity. Qed.

Lemma ret_Ok {A} (a b : A) (w w' : world) :
  ret a w = (Ok b, w') -> a = b /\ w = w'.
Proof. unfold ret. intros H. injection H as -> ->. auto. Qed.

Lemma lift_Ok {A} (r : result A) (b : A) (w w' : world) :
  lift r w = (Ok b, w') -> r = Ok b /\ w = w'.
Proof. unfold lift. intros H. injection H as -> ->. auto. Qed.

Lemma read_Ok (l : loc) (b : bgr_image) (w w' : world) :
  read l w = (Ok b, w') -> b = deref l w /\ w = w'.
Proof. unfold read. intros H. injection H as <- ->. auto. Qed.

Lemma write_file_Ok (p : path) (s : string) (w w' : world) (u : unit) :
  write_file p s w = (Ok u, w') ->
  w' = set_files (<[ p := s ]> (files w)) w
  /\ (dirname p = [] \/ dirname p ∈ dirs w) /\ p ∉ dirs w.
Proof.
  unfold write_file, writable.
  destruct (_ && _) eqn:E; [|discriminate].
  intros H. simplify_eq. split; [reflexivity|].
  apply andb_prop in E as [E1 E2].
  apply negb_true_iff, bool_decide_eq_false in E2.
  apply orb_prop in E1 as [E1|E1]; apply bool_decide_eq_true in E1; auto.
Qed.

Lemma run_Ok {A} (p : result A * world) :
  is_Ok (fst p) = true -> exists a, p = (Ok a, snd p).
Proof. destruct p as [[a|e] w]; simpl; [eauto | discriminate]. Qed.


(** Take a successful computation apart, step by step. *)
Ltac inv_M :=
  repeat match goal with
    | H : bind _ _ _ = (Ok _, _) |- _ =>
        let a := fresh "a" in let w := fresh "w" in let H1 := fresh "Hstep" in
        apply bind_Ok in H as (a & w & H1 & H)
    | H : ret _ _ = (Ok _, _) |- _ => apply ret_Ok in H as [? ?]; subst
    | H : lift _ _ = (Ok _, _) |- _ => apply lift_Ok in H as [H ?]; subst
    | H : read _ _ = (Ok _, _) |- _ => apply read_Ok in H as [? ?]; subst
    | H : raise _ _ = (Ok _, _) |- _ => discriminate H
    end.

Section Runs.
Variable L : libs.

Lemma get_text_boxes_Ok (l : loc) (width : Z) (w w' : world) th cs :
  Image.get_text_boxes L l width w = (Ok (th, cs), w') ->
  w' = w /\ th = thresh_of L (deref l w)
  /\ Image.narrow_down L width 0 (found_in L (deref l w)) = Ok cs.
Proof.
  unfold Image.get_text_boxes. intros H. inv_M.
  simplify_eq. auto.
Qed.

Lemma read_texts_Ok (config : string) (images : list mask) (texts : list string) :
  Image.read_texts L config images = Ok texts ->
  texts = map (Image.ocr L config) images.
Proof.
  revert texts. induction images as [|image images IH]; simpl; intros texts H.
  - injection H as <-. reflexivity.
  - unfold Image.read_text in H.
    destruct (tesseract_error L _ _); [discriminate|].
    destruct (Image.read_texts L config images) as [ts|e]; [|discriminate].
    injection H as <-. f_equal. by apply IH.
Qed.

Lemma crop_contours_Ok th cs crops :
  Image.crop_contours L th cs = Ok crops ->
  cs <> [] /\ crops = map (Image.crop L th) cs.
Proof.
  unfold Image.crop_contours. destruct cs; [discriminate|].
  intros H. injection H as <-. split; [discriminate|reflexivity].
Qed.

(** What a successful [Image(url)] went through. *)
Lemma init_Ok (url : pyval) (uid : string) (w w' : world) (self : Image.t) :
  Image.__init__ L url uid w = (Ok self, w') ->
  exists (w1 : world) (l : loc),
    Image.save_image_from_url L url uid ["images"; uid] w
      = (Ok (input_png uid, Some l), w1)
    /\ Image.narrow_down L (snd (shape (deref l w1))) 0 (found_in L (deref l w1))
       = Ok (Image.contours self)
    /\ Image.contours self <> []
    /\ write_file (text_txt uid) (str_join newline (Image.contour_texts self)) w1
       = (Ok tt, w')
    /\ self = Image.mk url uid ["images"; uid] l (input_png uid)
                (fst (shape (deref l w1))) (snd (shape (deref l w1)))
                (thresh_of L (deref l w1))
                (Image.contours self)
                (map (Image.crop L (thresh_of L (deref l w1))) (Image.contours self))
                (map (Image.ocr L Image.default_config)
                   (map (Image.crop L (thresh_of L (deref l w1))) (Image.contours self))).
Proof.
  unfold Image.__init__. intros H.
  apply bind_Ok in H as ([ip [l|]] & w1 & Hsave & H); [|discriminate H].
  assert (ip = input_png uid) as ->.
  { unfold Image.save_image_from_url in Hsave. inv_M.
    simplify_eq. reflexivity. }
  inv_M. cbv beta iota delta [shape] in H.
  apply bind_Ok in H as ([th cs] & w2 & Hboxes & H).
  apply get_text_boxes_Ok in Hboxes as (-> & -> & Hnd).
  apply bind_Ok in H as (crops & w3 & Hcrop & H).
  apply lift_Ok in Hcrop as [Hcrop ->].
  apply crop_contours_Ok in Hcrop as [Hne ->].
  apply bind_Ok in H as (texts & w4 & Htexts & H).
  apply ret_Ok in H as [<- ->].
  unfold Image.get_contour_texts in Htexts.
  apply bind_Ok in Htexts as (texts' & w6 & Hread & Htexts).
  apply lift_Ok in Hread as [Hread ->].
  apply read_texts_Ok in Hread as ->.
  apply bind_Ok in Htexts as ([] & w5 & Hwrite & Htexts).
  apply ret_Ok in Htexts as [<- ->].
  eexists _, l. repeat split; eauto.
Qed.

End Runs.

(** ** Slices *)

Lemma py_slice_lookup {A} (l : list A) (lo n : Z) (k : nat) :
  0 <= lo -> 0 <= n ->
  py_slice l lo (lo + n) !! k
  = if Z.of_nat k <? n then l !! (Z.to_nat lo + k)%nat else None.
Proof.
  intros Hlo Hn. unfold py_slice, slice_bound.
  replace (lo <? 0) with false by (symmetry; apply Z.ltb_ge; lia).
  replace (lo + n <? 0) with false by (symmetry; apply Z.ltb_ge; lia).
  set (len := Z.of_nat (length l)).
  destruct (Z.ltb_spec (Z.of_nat k) n) as [Hk|Hk].
  - destruct (decide (Z.to_nat lo + k < length l)%nat) as [Hin|Hout].
    + rewrite lookup_take_lt by lia. rewrite lookup_drop. f_equal. lia.
    + rewrite (lookup_ge_None_2 l) by lia.
      apply lookup_ge_None_2. rewrite length_take, length_drop. lia.
  - apply lookup_ge_None_2. rewrite length_take, length_drop. lia.
Qed.

Lemma ndarray_slice2_pixel (m : mask) (x y w h : Z) (r k : nat) :
  0 <= x -> 0 <= y -> 0 <= w -> 0 <= h ->
  pixel (ndarray_slice2 m y (y + h) x (x + w)) r k
  = if (Z.of_nat r <? h) && (Z.of_nat k <? w)
    then pixel m (Z.to_nat y + r) (Z.to_nat x + k)
    else None.
Proof.
  intros Hx Hy Hw Hh. unfold pixel, ndarray_slice2.
  rewrite lookup_map, py_slice_lookup by assumption.
  destruct (Z.of_nat r <? h); simpl; [|reflexivity].
  destruct (m !! (Z.to_nat y + r)%nat) as [row|]; simpl.
  - apply py_slice_lookup; assumption.
  - destruct (Z.of_nat k <? w); reflexivity.
Qed.

Lemma threshold_step_binary (gray : mask) (r k : nat) (p : Z) :
  pixel (threshold_step gray) r k = Some p -> p = 0 \/ p = 255.
Proof.
  rewrite threshold_step_map, pixel_map.
  destruct (pixel gray r k) as [q|]; simpl; [|discriminate].
  destruct (q >? 250); intros H; injection H as <-; auto.
Qed.

(** ** Lines of text *)

Lemma split_lines_no_newline (s : string) :
  has_newline s = false -> split_lines s = [s].
Proof.
  induction s as [|c s IH]; simpl; [reflexivity|].
  intros H. apply orb_false_elim in H as [Hc Hs].
  rewrite Hc, (IH Hs). reflexivity.
Qed.

Lemma split_lines_app (a rest : string) :
  has_newline a = false ->
  split_lines (a ++ newline ++ rest) = a :: split_lines rest.
Proof.
  induction a as [|c a IH]; simpl.
  - intros _. reflexivity.
  - intros H. apply orb_false_elim in H as [Hc Ha].
    rewrite Hc. simpl in IH. rewrite (IH Ha). reflexivity.
Qed.

Lemma split_lines_join (texts : list string) :
  texts <> [] ->
  Forall (fun s => has_newline s = false) texts ->
  split_lines (str_join newline texts) = texts.
Proof.
  intros Hne Hall. induction Hall as [|s texts Hs Hall IH]; [congruence|].
  destruct texts as [|s' texts]; simpl.
  - apply split_lines_no_newline, Hs.
  - change (split_lines (s ++ newline ++ str_join newline (s' :: texts))
            = s :: s' :: texts).
    rewrite split_lines_app by assumption.
    f_equal. apply IH. discriminate.
Qed.

Section RunProperties.
Variable L : libs.


Lemma init_text_file (url : pyval) (uid : string) (w w' : world) (self : Image.t) :
  Image.__init__ L url uid w = (Ok self, w') ->
  files w' !! text_txt uid = Some (str_join newline (Image.contour_texts self))
  /\ deref (Image.image self) w'
     = deref (Image.image self) (snd (Image.save_image_from_url L url uid ["images"; uid] w)).
Proof.
  intros H. apply init_Ok in H as (w1 & l & Hsave & _ & _ & Hwrite & Hself).
  apply write_file_Ok in Hwrite as [-> _]. rewrite Hsave. simpl. split.
  - apply lookup_insert_eq.
  - reflexivity.
Qed.

(** C6 (as amended): in a successful run there are as many texts as
    Regions; the i-th crop is cut for the i-th Region and the i-th text is
    read from the i-th crop; the text file holds the texts joined by
    newlines, in that order, and splitting it at the newlines gives the
    texts back when no text contains a newline. *)
Theorem texts_follow_regions
    (url : pyval) (uid : string) (w w' : world) (self : Image.t) :
  Image.__init__ L url uid w = (Ok self, w') ->
  length (Image.contour_texts self) = length (Image.contours self)
  /\ (forall (i : nat) (c : contour),
        Image.contours self !! i = Some c ->
        Image.cropped_contours self !! i = Some (Image.crop L (Image.thresh self) c)
        /\ Image.contour_texts self !! i
           = Some (Image.ocr L Image.default_config
                     (Image.crop L (Image.thresh self) c)))
  /\ files w' !! text_txt uid = Some (str_join newline (Image.contour_texts self))
  /\ (Forall (fun s => has_newline s = false) (Image.contour_texts self) ->
      split_lines (str_join newline (Image.contour_texts self))
      = Image.contour_texts self).
Proof.
  intros H. pose proof (init_text_file _ _ _ _ _ H) as [Hfile _].
  apply init_Ok in H as (w1 & l & _ & _ & Hne & _ & Hself).
  split; [|split; [|split]].
  - rewrite Hself. simpl. rewrite !length_map. reflexivity.
  - intros i c Hi. rewrite Hself. simpl. rewrite !lookup_map, Hi. auto.
  - exact Hfile.
  - apply split_lines_join. rewrite Hself. simpl.
    destruct (Image.contours self); [congruence | discriminate].
Qed.

(** C8: in a successful run the mask kept in [self.thresh] is the
    thresholded grayscale picture, as it was before erosion and dilation;
    every crop is cut out of that mask at the bounding rectangle of its
    contour, pixel by pixel, so it holds only 0 and 255; and the text of a
    Region is what Tesseract reads in its crop, dilated once more. *)
Theorem crops_come_from_thresh
    (url : pyval) (uid : string) (w w' : world) (self : Image.t) :
  Image.__init__ L url uid w = (Ok self, w') ->
  Image.thresh self
  = threshold_step (cvtColor_BGR2GRAY L (deref (Image.image self) w'))
  /\ Image.cropped_contours self
     = map (Image.crop L (Image.thresh self)) (Image.contours self)
  /\ Image.contour_texts self
     = map (fun crop => image_to_string L (dilate L crop (2, 2)%nat 1%nat)
                          "-l eng --oem 1 --psm 3")
           (Image.cropped_contours self)
  /\ (forall (c : contour) (x y bw bh : Z),
        boundingRect L c = (x, y, bw, bh) ->
        0 <= x -> 0 <= y -> 0 <= bw -> 0 <= bh ->
        forall r k : nat,
          pixel (Image.crop L (Image.thresh self) c) r k
          = if (Z.of_nat r <? bh) && (Z.of_nat k <? bw)
            then pixel (Image.thresh self) (Z.to_nat y + r) (Z.to_nat x + k)
            else None)
  /\ (forall (crop : mask) (r k : nat) (p : Z),
        crop ∈ Image.cropped_contours self ->
        pixel crop r k = Some p -> p = 0 \/ p = 255).
Proof.
  intros H. pose proof (init_text_file _ _ _ _ _ H) as [_ Hbuf].
  apply init_Ok in H as (w1 & l & Hsave & _ & _ & _ & Hself).
  rewrite Hsave in Hbuf. simpl in Hbuf.
  assert (Hth : Image.thresh self = thresh_of L (deref l w1))
    by (rewrite Hself; reflexivity).
  assert (Hl : Image.image self = l) by (rewrite Hself; reflexivity).
  assert (Hcrop : forall (c : contour) (x y bw bh : Z),
             boundingRect L c = (x, y, bw, bh) ->
             0 <= x -> 0 <= y -> 0 <= bw -> 0 <= bh ->
             forall r k : nat,
               pixel (Image.crop L (Image.thresh self) c) r k
               = if (Z.of_nat r <? bh) && (Z.of_nat k <? bw)
                 then pixel (Image.thresh self) (Z.to_nat y + r) (Z.to_nat x + k)
                 else None).
  { intros c x y bw bh Hb Hx Hy Hw Hh r k. unfold Image.crop. rewrite Hb.
    apply ndarray_slice2_pixel; assumption. }
  split; [|split; [|split; [|split]]].
  - rewrite Hth, Hbuf, Hl. reflexivity.
  - rewrite Hself. reflexivity.
  - rewrite Hself. reflexivity.
  - exact Hcrop.
  - intros crop r k p Hin Hp.
    rewrite Hself in Hin. simpl in Hin.
    apply list_elem_of_In, in_map_iff in Hin as (c & <- & _).
    unfold Image.crop, ndarray_slice2, pixel in Hp.
    destruct (boundingRect L c) as [[[x y] bw] bh].
    rewrite lookup_map in Hp.
    destruct (py_slice (thresh_of L (deref l w1)) y (y + bh) !! r) as [row|] eqn:Hrow;
      simpl in Hp; [|discriminate].
    unfold py_slice in Hrow, Hp.
    apply lookup_take_Some in Hrow as [Hrow _]. rewrite lookup_drop in Hrow.
    apply lookup_take_Some in Hp as [Hp _]. rewrite lookup_drop in Hp.
    eapply (threshold_step_binary (cvtColor_BGR2GRAY L (deref l w1))).
    unfold pixel. fold (thresh_of L (deref l w1)). rewrite Hrow. exact Hp.
Qed.

End RunProperties.

(** C6 (as stated) fails when Tesseract reads two lines in a Region: the
    run succeeds with one Region and one text, [ONE] and [TWO] on two
    lines; the text file then has two blocks, and the first is [ONE]
    alone. *)
Lemma text_block_differs_from_text :
  exists (self : Image.t) (content : string),
    Sample.init_run = (Ok self, snd Sample.init_run)
    /\ files (snd Sample.init_run) !! text_txt "run" = Some content
    /\ Image.contour_texts self !! 0%nat = Some Sample.two_lines
    /\ split_lines content !! 0%nat = Some "ONE"
    /\ split_lines content !! 0%nat <> Image.contour_texts self !! 0%nat
    /\ length (split_lines content) <> length (Image.contours self).
Proof.
  destruct (run_Ok Sample.init_run) as [self E]; [vm_compute; reflexivity|].
  pose proof (init_text_file _ _ _ _ _ _ E) as [Hfile _].
  assert (Htexts : match fst Sample.init_run with
                   | Ok i => Image.contour_texts i
                   | Raise _ => []
                   end = [Sample.two_lines]) by (vm_compute; reflexivity).
  assert (Hcs : match fst Sample.init_run with
                | Ok i => Image.contours i
                | Raise _ => []
                end = [Sample.bar]) by (vm_compute; reflexivity).
  rewrite E in Htexts, Hcs. simpl in Htexts, Hcs.
  exists self, Sample.two_lines. rewrite Htexts in Hfile.
  split; [exact E|]. split; [exact Hfile|]. rewrite Htexts, Hcs.
  repeat split; discriminate.
Qed.

(** ** Directories *)

Lemma makes_dirs_refl (ps : list path) (w : world) : makes_dirs ps w w.
Proof. repeat split; auto. Qed.

Lemma makes_dirs_trans (ps1 ps2 : list path) (w1 w2 w3 : world) :
  makes_dirs ps1 w1 w2 -> makes_dirs ps2 w2 w3 -> makes_dirs (ps1 ++ ps2) w1 w3.
Proof.
  intros (Hf1 & Hh1 & Hd1 & Hn1) (Hf2 & Hh2 & Hd2 & Hn2).
  repeat split; try congruence; [set_solver|].
  intros q Hq. destruct (Hn2 q Hq) as [Hq2|(p & Hp & Hpre)].
  - destruct (Hn1 q Hq2) as [?|(p & Hp & Hpre)]; [auto|].
    right. exists p. split; [set_solver | done].
  - right. exists p. split; [set_solver | done].
Qed.

Lemma os_path_exists_Ok (p : path) (w w' : world) (e : bool) :
  os_path_exists p w = (Ok e, w') -> e = exists_b p w /\ w' = w.
Proof. unfold os_path_exists. intros H. injection H as <- <-. auto. Qed.

Lemma os_mkdir_Ok (p : path) (w w' : world) (u : unit) :
  os_mkdir p w = (Ok u, w') -> w' = set_dirs ({[ p ]} ∪ dirs w) w.
Proof.
  unfold os_mkdir. destruct (exists_b p w); [discriminate|].
  destruct (_ || _); [|discriminate]. intros H. simplify_eq. reflexivity.
Qed.

Lemma os_mkdir_makes_dirs (p : path) (w w' : world) (u : unit) :
  os_mkdir p w = (Ok u, w') -> makes_dirs [p] w w' /\ p ∈ dirs w'.
Proof.
  intros H. apply os_mkdir_Ok in H as ->. split; [|set_solver].
  repeat split; simpl; [set_solver|].
  intros q Hq. apply elem_of_union in Hq as [Hq|Hq]; [|auto].
  right. exists p. split; [set_solver|]. apply elem_of_singleton in Hq as ->. done.
Qed.

Lemma mkdir_each_makes_dirs (qs : list path) (w w' : world) (u : unit) :
  for_each qs (fun q => do e <- os_path_exists q; if e then ret tt else os_mkdir q) w
  = (Ok u, w') ->
  makes_dirs qs w w'.
Proof.
  revert w. induction qs as [|q qs IH]; intros w H; simpl in H.
  - apply ret_Ok in H as [_ ->]. apply makes_dirs_refl.
  - apply bind_Ok in H as ([] & w1 & Hq & H).
    apply bind_Ok in Hq as (e & w0 & He & Hq).
    apply os_path_exists_Ok in He as [-> ->].
    apply (makes_dirs_trans [q] qs w w1 w'); [|eauto].
    destruct (exists_b q w).
    + apply ret_Ok in Hq as [_ ->]. apply makes_dirs_refl.
    + apply os_mkdir_makes_dirs in Hq as [Hq _]. exact Hq.
Qed.

Lemma ancestors_prefix (p q : path) : q ∈ ancestors p -> q `prefix_of` p.
Proof.
  unfold ancestors. intros H.
  apply list_elem_of_In, in_map_iff in H as (n & <- & _).
  exists (drop n p). symmetry. apply take_drop.
Qed.

Lemma make_if_missing_Ok (L : libs) (p : path) (w w' : world) (u : unit) :
  Image.make_if_missing p w = (Ok u, w') ->
  makes_dirs [p] w w' /\ (p ∈ dirs w' \/ is_Some (files w !! p)).
Proof.
  unfold Image.make_if_missing. intros H.
  apply bind_Ok in H as (e & w0 & He & H).
  apply os_path_exists_Ok in He as [-> ->].
  destruct (exists_b p w) eqn:E.
  - apply ret_Ok in H as [_ ->]. split; [apply makes_dirs_refl|].
    unfold exists_b in E. apply orb_prop in E as [E|E].
    + left. by apply bool_decide_eq_true in E.
    + right. by apply bool_decide_eq_true in E.
  - unfold os_makedirs in H.
    apply bind_Ok in H as ([] & w1 & Hanc & H).
    apply mkdir_each_makes_dirs in Hanc.
    apply os_mkdir_makes_dirs in H as [Hp Hin].
    split; [|auto].
    destruct Hanc as (Hf1 & Hh1 & Hd1 & Hn1). destruct Hp as (Hf2 & Hh2 & Hd2 & Hn2).
    repeat split; try congruence; [set_solver|].
    intros q Hq. destruct (Hn2 q Hq) as [Hq2|(p' & Hp' & Hpre)].
    + destruct (Hn1 q Hq2) as [?|(p' & Hp' & Hpre)]; [auto|].
      right. exists p. split; [by constructor|].
      etrans; [exact Hpre | by apply ancestors_prefix].
    + right. exists p'. auto.
Qed.

(** ** The fetch step *)

Section Fetch.
Variable L : libs.

Lemma save_image_from_url_Ok (url : pyval) (uid : string) (w w1 : world)
    (ip : path) (img : option loc) :
  Image.save_image_from_url L url uid ["images"; uid] w = (Ok (ip, img), w1) ->
  exists (u data : string),
    url = VStr u /\ urlopen L u = Some data
    /\ files w1 = <[ input_png uid := data ]> (files w)
    /\ (forall d : string, d ∈ ["input_images"; "output_images"; "output_texts"] ->
          ["images"; uid; d] ∈ dirs w1 \/ is_Some (files w !! ["images"; uid; d]))
    /\ (forall q : path, q ∈ dirs w1 -> q ∈ dirs w \/ (length q <= 3)%nat)
    /\ match img with
       | Some l =>
           heap w !! l = None
           /\ exists decoded, imdecode L data = Some decoded
                            /\ heap w1 = <[ l := decoded ]> (heap w)
       | None => heap w1 = heap w
       end.
Proof.
  unfold Image.save_image_from_url. intros H. simpl in H.
  apply bind_Ok in H as ([] & wa & Ha & H).
  apply bind_Ok in H as ([] & wd & Hdirs & H).
  apply bind_Ok in Hdirs as ([] & wb & Hb & Hdirs).
  apply bind_Ok in Hdirs as ([] & wc & Hc & Hdirs).
  apply bind_Ok in Hdirs as ([] & wd' & Hd & Hdirs).
  apply ret_Ok in Hdirs as [_ ->].
  apply bind_Ok in H as ([] & we & Hget & H).
  apply bind_Ok in H as (im & wf & Hread & H).
  apply ret_Ok in H as [H ->]. injection H as <- <-.
  apply (make_if_missing_Ok L) in Ha as [Ha _].
  apply (make_if_missing_Ok L) in Hb as [Hb Hb'].
  apply (make_if_missing_Ok L) in Hc as [Hc Hc'].
  apply (make_if_missing_Ok L) in Hd as [Hd Hd'].
  pose proof (makes_dirs_trans _ _ _ _ _ Ha Hb) as Hab.
  pose proof (makes_dirs_trans _ _ _ _ _ Hab Hc) as Habc.
  pose proof (makes_dirs_trans _ _ _ _ _ Habc Hd) as Hall. simpl in Hall.
  destruct Hb as (Hfb & _ & _ & _), Hc as (Hfc & _ & Hdc & _), Hd as (Hfd & _ & Hdd & _).
  destruct Ha as (Hfa & _), Hab as (Hfab & _), Habc as (Hfabc & _).
  destruct Hall as (Hf & Hh & Hsub & Hnew).
  unfold Image.urlretrieve in Hget.
  destruct url as [u| | | | | |]; try discriminate Hget.
  destruct (urlopen L u) as [data|] eqn:Hopen.
  2: { destruct (url_failure L u) as [e|received e]; [discriminate Hget|].
       apply bind_Ok in Hget as (a & wx & _ & Hget). discriminate Hget. }
  apply write_file_Ok in Hget as (-> & _ & _).
  exists u, data. split; [reflexivity|]. split; [exact Hopen|].
  assert (Hfiles : files w1 = <[ input_png uid := data ]> (files w)
          /\ dirs w1 = dirs wd
          /\ match im with
             | Some l =>
                 heap w !! l = None
                 /\ exists decoded, imdecode L data = Some decoded
                                  /\ heap w1 = <[ l := decoded ]> (heap w)
             | None => heap w1 = heap w
             end).
  { unfold Image.cv2_imread in Hread. simpl in Hread.
    change (os_path_join ["images"; uid] ["input_images"; "input.png"])
      with (input_png uid) in Hread.
    rewrite lookup_insert_eq in Hread.
    destruct (imdecode L data) as [decoded|] eqn:Hdec.
    - unfold bind, alloc, ret in Hread. simpl in Hread.
      injection Hread as <- <-. simpl. rewrite Hf, Hh.
      repeat split; [|eauto].
      apply not_elem_of_dom. apply is_fresh.
    - injection Hread as <- <-. simpl. rewrite Hf, Hh. auto. }
  destruct Hfiles as (Hfiles & Hdirs & Hheap).
  split; [exact Hfiles|]. split; [|split; [|exact Hheap]].
  - intros d Hdin. rewrite Hdirs.
    rewrite Hfa in Hb'. rewrite Hfab in Hc'. rewrite Hfabc in Hd'.
    repeat (apply elem_of_cons in Hdin as [->|Hdin]); [| | |by apply elem_of_nil in Hdin].
    + destruct Hb' as [Hb'|Hb']; [left|right; exact Hb']. apply Hdd, Hdc, Hb'.
    + destruct Hc' as [Hc'|Hc']; [left|right; exact Hc']. apply Hdd, Hc'.
    + destruct Hd' as [Hd'|Hd']; [left|right; exact Hd']. exact Hd'.
  - intros q Hq. rewrite Hdirs in Hq.
    destruct (Hnew q Hq) as [?|(p & Hp & Hpre)]; [auto|right].
    apply prefix_length in Hpre.
    repeat (apply elem_of_cons in Hp as [->|Hp]); simpl in Hpre; try lia.
    by apply elem_of_nil in Hp.
Qed.

End Fetch.

(** ** The annotation step *)

Lemma for_each_ext {A} (l : list A) (f g : A -> M unit) (w : world) :
  (forall x w, f x w = g x w) -> for_each l f w = for_each l g w.
Proof.
  intros Hfg. revert w. induction l as [|x l IH]; intros w; simpl; [reflexivity|].
  unfold bind. rewrite Hfg. destruct (g x w) as [[[]|e] w1]; auto.
Qed.

Lemma set_heap_id (w : world) (l : loc) (img : bgr_image) :
  heap w !! l = Some img -> set_heap (<[ l := img ]> (heap w)) w = w.
Proof.
  intros H. destruct w as [d f h]. unfold set_heap. simpl in *.
  f_equal. by apply insert_id.
Qed.

Lemma for_each_modify (f : contour -> bgr_image -> bgr_image)
    (cs : list contour) (copy : loc) (w : world) (img : bgr_image) :
  heap w !! copy = Some img ->
  for_each cs (fun c => modify copy (f c)) w
  = (Ok tt, set_heap (<[ copy := fold_left (fun buf c => f c buf) cs img ]> (heap w)) w).
Proof.
  revert w img. induction cs as [|c cs IH]; intros w img Hw; simpl.
  - unfold ret. f_equal. symmetry. by apply set_heap_id.
  - unfold bind at 1. unfold modify at 1. unfold deref. rewrite Hw. simpl.
    rewrite (IH _ (f c img)) by (simpl; apply lookup_insert_eq).
    unfold set_heap. simpl. rewrite insert_insert_eq. reflexivity.
Qed.

Section Annotation.
Variable L : libs.

Lemma draw_contours_run (self : Image.t) (w : world) (img : bgr_image) :
  heap w !! Image.image self = Some img ->
  let copy := fresh (dom (heap w)) in
  let annotated := annotate L (Image.contours self) img in
  let out := Image.path self ++ ["output_images"; "contours.png"] in
  let w1 := set_heap (<[ copy := annotated ]> (heap w)) w in
  Image.draw_contours L self true w
  = (Ok tt,
     if writable out w
     then set_files (<[ out := imencode L annotated ]> (files w)) w1
     else w1).
Proof.
  intros Himg copy annotated out w1.
  unfold Image.draw_contours.
  unfold bind at 1. unfold read at 1. unfold deref at 1. rewrite Himg. simpl.
  unfold bind at 1. unfold alloc at 1. fold copy.
  set (w0 := set_heap (<[ copy := img ]> (heap w)) w).
  rewrite (bind_step _ _ w0 w1 tt).
  - unfold Image.cv2_imwrite, bind, read, deref, write_file, ret.
    change (os_path_join (Image.path self) ["output_images"; "contours.png"]) with out.
    change (writable out w1) with (writable out w).
    subst w1. simpl. rewrite lookup_insert_eq. simpl.
    destruct (writable out w); reflexivity.
  - rewrite (for_each_ext _ _
       (fun c => modify copy
          (fun buf => let '(x, y, bw, bh) := boundingRect L c in
                      rectangle L buf (x, y) (x + bw, y + bh) (0, 255, 0) 2))).
    + rewrite (for_each_modify _ _ _ _ img) by (subst w0; simpl; apply lookup_insert_eq).
      subst w0 w1. unfold set_heap. simpl. rewrite insert_insert_eq.
      unfold annotated, annotate. reflexivity.
    + intros c w2. destruct (boundingRect L c) as [[[x y] bw] bh]. reflexivity.
Qed.

(** With the directory for the annotated picture in place the picture is
    written, and the copy is a new buffer. *)
Lemma draw_contours_Ok (self : Image.t) (w : world) (img : bgr_image) :
  heap w !! Image.image self = Some img ->
  Image.path self ++ ["output_images"] ∈ dirs w ->
  Image.path self ++ ["output_images"; "contours.png"] ∉ dirs w ->
  let copy := fresh (dom (heap w)) in
  let annotated := annotate L (Image.contours self) img in
  copy <> Image.image self
  /\ Image.draw_contours L self true w
     = (Ok tt,
        set_files
          (<[ Image.path self ++ ["output_images"; "contours.png"]
              := imencode L annotated ]> (files w))
          (set_heap (<[ copy := annotated ]> (heap w)) w)).
Proof.
  intros Himg Hdir Hout copy annotated.
  pose proof (draw_contours_run self w img Himg) as Hrun. simpl in Hrun.
  assert (Hw : writable (Image.path self ++ ["output_images"; "contours.png"]) w = true).
  { unfold writable. apply andb_true_intro. split.
    - apply orb_true_intro. right. apply bool_decide_eq_true.
      unfold dirname.
      change ["output_images"; "contours.png"] with (["output_images"] ++ ["contours.png"]).
      rewrite app_assoc, removelast_last. exact Hdir.
    - apply negb_true_iff, bool_decide_eq_false. exact Hout. }
  rewrite Hw in Hrun. split; [|exact Hrun].
  intros Heq. pose proof (is_fresh (dom (heap w))) as Hfresh.
  fold copy in Hfresh. rewrite Heq in Hfresh. apply Hfresh. apply elem_of_dom. eauto.
Qed.

(** C10: [draw_contours] allocates a copy of the decoded picture, draws on
    the copy, for every Region, a rectangle of thickness 2 and colour
    (0, 255, 0) with corners [(x, y)] and [(x + w, y + h)], and writes the
    copy to [output_images/contours.png]; the buffer of the decoded picture
    keeps its contents, and so does every other buffer. *)
Theorem draw_contours_keeps_image (self : Image.t) (w : world) (img : bgr_image) :
  heap w !! Image.image self = Some img ->
  Image.path self ++ ["output_images"] ∈ dirs w ->
  Image.path self ++ ["output_images"; "contours.png"] ∉ dirs w ->
  exists (w' : world) (copy : loc),
    Image.draw_contours L self true w = (Ok tt, w')
    /\ copy <> Image.image self
    /\ heap w' !! copy = Some (annotate L (Image.contours self) img)
    /\ (forall l : loc, l <> copy -> heap w' !! l = heap w !! l)
    /\ heap w' !! Image.image self = Some img
    /\ files w' !! (Image.path self ++ ["output_images"; "contours.png"])
       = Some (imencode L (annotate L (Image.contours self) img))
    /\ (forall p : path, p <> Image.path self ++ ["output_images"; "contours.png"] ->
          files w' !! p = files w !! p).
Proof.
  intros Himg Hdir Hout.
  destruct (draw_contours_Ok self w img Himg Hdir Hout) as [Hne Hrun].
  eexists _, (fresh (dom (heap w))). split; [exact Hrun|]. simpl.
  split; [exact Hne|]. split; [apply lookup_insert_eq|].
  split; [intros l Hl; by apply lookup_insert_ne|].
  split; [by rewrite lookup_insert_ne|].
  split; [apply lookup_insert_eq|].
  intros p Hp. by apply lookup_insert_ne.
Qed.

(** C9: a successful run of [ocr_meme] under a fresh run identifier leaves
    exactly three files under [images/<run-id>]: [input_images/input.png]
    with the downloaded bytes, [output_images/contours.png] with the
    annotated picture, and [output_texts/text.txt] with the texts joined by
    newlines. *)
Theorem run_leaves_three_files
    (self : Reddit.t) (url : pyval) (uid : string) (w w' : world) :
  Reddit.ocr_meme L self url uid w = (Ok tt, w') ->
  fresh_run uid w ->
  (forall p : path, ["images"; uid] `prefix_of` p ->
     (is_Some (files w' !! p)
      <-> p = input_png uid \/ p = contours_png uid \/ p = text_txt uid))
  /\ exists (image : Image.t) (w2 : world) (u data : string) (decoded : bgr_image),
      Image.__init__ L url uid w = (Ok image, w2)
      /\ url = VStr u /\ urlopen L u = Some data /\ imdecode L data = Some decoded
      /\ files w' !! input_png uid = Some data
      /\ files w' !! contours_png uid
         = Some (imencode L (annotate L (Image.contours image) decoded))
      /\ files w' !! text_txt uid
         = Some (str_join newline (Image.contour_texts image)).
Proof.
  intros Hrun Hfresh. unfold Reddit.ocr_meme in Hrun.
  apply bind_Ok in Hrun as (image & w2 & Hinit & Hdraw).
  pose proof Hinit as Hinit'.
  apply init_Ok in Hinit' as (w1 & l & Hsave & _ & _ & Hwrite & Hself).
  apply write_file_Ok in Hwrite as (-> & _ & _).
  apply save_image_from_url_Ok in Hsave
    as (u & data & -> & Hopen & Hfiles & Hdirs & Hnew & Hl & decoded & Hdec & Hheap).
  assert (Hpath : Image.path image = ["images"; uid]) by (rewrite Hself; reflexivity).
  assert (Himage : Image.image image = l) by (rewrite Hself; reflexivity).
  assert (Hpre : forall d f : string, ["images"; uid] `prefix_of` ["images"; uid; d; f]).
  { intros d f. by exists [d; f]. }
  assert (Hpre1 : forall d : string, ["images"; uid] `prefix_of` ["images"; uid; d]).
  { intros d. by exists [d]. }
  destruct (draw_contours_Ok image
              (set_files (<[ text_txt uid := str_join newline (Image.contour_texts image) ]>
                            (files w1)) w1) decoded)
    as [_ Hdraw'].
  { simpl. rewrite Himage, Hheap. apply lookup_insert_eq. }
  { simpl. rewrite Hpath. simpl.
    destruct (Hdirs "output_images") as [Hin|Hfile]; [set_solver | exact Hin |].
    destruct (Hfresh ["images"; uid; "output_images"] (Hpre1 _)) as [_ Hnone].
    rewrite Hnone in Hfile. by destruct Hfile. }
  { simpl. rewrite Hpath. simpl. intros Hin.
    destruct (Hnew _ Hin) as [Hold|Hlen]; [|simpl in Hlen; lia].
    by destruct (Hfresh _ (Hpre "output_images" "contours.png")) as [Hno _]. }
  rewrite Hdraw' in Hdraw. injection Hdraw as <-.
  rewrite Hpath. simpl.
  change (["images"; uid; "output_images"; "contours.png"]) with (contours_png uid).
  rewrite Hfiles.
  split.
  - intros p Hp. rewrite !lookup_insert.
    destruct (decide (contours_png uid = p)) as [<-|Hn1]; [split; eauto|].
    destruct (decide (text_txt uid = p)) as [<-|Hn2]; [split; eauto|].
    destruct (decide (input_png uid = p)) as [<-|Hn3]; [split; eauto|].
    destruct (Hfresh p Hp) as [_ ->]. split.
    + intros Hsome. by destruct Hsome.
    + intros [-> | [-> | ->]]; congruence.
  - eexists image, _, u, data, decoded.
    split; [exact Hinit|]. split; [reflexivity|]. split; [exact Hopen|].
    split; [exact Hdec|].
    split; [|split].
    + rewrite lookup_insert_ne by discriminate.
      rewrite lookup_insert_ne by discriminate. apply lookup_insert_eq.
    + apply lookup_insert_eq.
    + rewrite lookup_insert_ne by discriminate. apply lookup_insert_eq.
Qed.

End Annotation.

(** ** The properties at work on sample runs *)



(** C6 on the run that finds the caption. *)
Lemma texts_follow_regions_witness :
  exists self : Image.t,
    Sample.init_run = (Ok self, snd Sample.init_run)
    /\ length (Image.contour_texts self) = length (Image.contours self)
    /\ files (snd Sample.init_run) !! text_txt "run"
       = Some (str_join newline (Image.contour_texts self)).
Proof.
  destruct (run_Ok Sample.init_run) as [self E]; [vm_compute; reflexivity|].
  exists self. split; [exact E|].
  destruct (texts_follow_regions Sample.caption (VStr "u") "run" Sample.empty_world
              (snd Sample.init_run) self E) as (Hlen & _ & Hfile & _).
  split; [exact Hlen | exact Hfile].
Defined.

(** C8 on the run that finds the caption. *)
Lemma crops_come_from_thresh_witness :
  exists self : Image.t,
    Sample.init_run = (Ok self, snd Sample.init_run)
    /\ Image.cropped_contours self
       = map (Image.crop Sample.caption (Image.thresh self)) (Image.contours self)
    /\ pixel (Image.crop Sample.caption (Image.thresh self) Sample.bar) 1 11
       = pixel (Image.thresh self) 2 15.
Proof.
  destruct (run_Ok Sample.init_run) as [self E]; [vm_compute; reflexivity|].
  exists self. split; [exact E|].
  destruct (crops_come_from_thresh Sample.caption (VStr "u") "run" Sample.empty_world
              (snd Sample.init_run) self E) as (_ & Hcrops & _ & Hpixel & _).
  split; [exact Hcrops|].
  apply (Hpixel Sample.bar 4 1 12 2); [reflexivity | lia | lia | lia | lia].
Defined.

(** C10 on an object whose picture sits in buffer 0. *)
Lemma draw_contours_keeps_image_witness :
  exists w' : world,
    Image.draw_contours Sample.caption Sample.self true Sample.drawing_world = (Ok tt, w')
    /\ heap w' !! 0%nat = Some (Sample.white 6 20)
    /\ files w' !! contours_png "run"
       = Some (imencode Sample.caption
                 (annotate Sample.caption [Sample.bar] (Sample.white 6 20))).
Proof.
  destruct (draw_contours_keeps_image Sample.caption Sample.self Sample.drawing_world
              (Sample.white 6 20))
    as (w' & copy & Hrun & _ & _ & _ & Himage & Hfile & _).
  - reflexivity.
  - simpl. apply elem_of_singleton. reflexivity.
  - simpl. intros H. apply elem_of_singleton in H. discriminate H.
  - exists w'. split; [exact Hrun|]. split; [exact Himage | exact Hfile].
Defined.

(** C9 on the run that finds the caption. *)
Lemma run_leaves_three_files_witness :
  Sample.meme_run = (Ok tt, snd Sample.meme_run)
  /\ forall p : path, ["images"; "run"] `prefix_of` p ->
       (is_Some (files (snd Sample.meme_run) !! p)
        <-> p = input_png "run" \/ p = contours_png "run" \/ p = text_txt "run").
Proof.
  destruct (run_Ok Sample.meme_run) as [[] E]; [vm_compute; reflexivity|].
  split; [exact E|].
  refine (proj1 (run_leaves_three_files Sample.caption
                   (Reddit.__init__ "u" "p" "i" "s" "required")
                   (VStr "u") "run" Sample.empty_world (snd Sample.meme_run) E _)).
  intros p _. split; [apply not_elem_of_empty | apply lookup_empty].
Defined.

(** * Further properties of the code *)

Section Scraping.
Variable L : libs.

Lemma map_result_Ok {A B} (f : A -> result B) (l : list A) (ys : list B) :
  Reddit.map_result f l = Ok ys -> Forall2 (fun x y => f x = Ok y) l ys.
Proof.
  revert ys. induction l as [|x l IH]; simpl; intros ys H.
  - injection H as <-. constructor.
  - destruct (f x) as [y|e] eqn:Hx; [|discriminate].
    destruct (Reddit.map_result f l) as [ys'|e]; [|discriminate].
    injection H as <-. constructor; auto.
Qed.

Lemma map_result_Ok_iff {A B} (f : A -> result B) (l : list A) :
  (exists ys, Reddit.map_result f l = Ok ys)
  <-> Forall (fun x => exists y, f x = Ok y) l.
Proof.
  induction l as [|x l IH]; simpl.
  - split; [constructor | eauto].
  - split.
    + intros [ys H]. destruct (f x) as [y|e] eqn:Hx; [|discriminate].
      destruct (Reddit.map_result f l) as [ys'|e] eqn:Hl; [|discriminate].
      constructor; [eauto | apply IH; eauto].
    + intros H. apply Forall_cons in H as [[y Hy] Hl].
      apply IH in Hl as [ys Hys]. rewrite Hy, Hys. eauto.
Qed.

Lemma source_url_Ok (post : submission) (url : string) :
  Reddit.source_url post = Ok url <-> first_source post url.
Proof.
  unfold Reddit.source_url, first_source.
  destruct (preview post) as [[|u us]|].
  - split; [discriminate | intros [rest H]; discriminate].
  - split.
    + intros H. injection H as <-. eauto.
    + intros [rest H]. injection H as <- _. reflexivity.
  - split; [discriminate | intros [rest H]; discriminate].
Qed.

Lemma scrape_Ok
    (self self' : Reddit.t) (subreddit sub_category : string) (n : nat) :
  Reddit.scrape_sub_pictures L self subreddit sub_category n = Ok self' ->
  exists (posts : list submission) (urls : list string),
    listing L (Reddit.reddit self) subreddit sub_category n = Ok posts
    /\ Reddit.image_urls self' = Some urls
    /\ Forall2 first_source (filter is_image_post posts) urls
    /\ Reddit.reddit self' = Reddit.reddit self.
Proof.
  unfold Reddit.scrape_sub_pictures.
  destruct (listing L _ _ _ _) as [posts|e]; [|discriminate].
  destruct (Reddit.map_result _ _) as [urls|e] eqn:Hurls; [|discriminate].
  intros H. injection H as <-. exists posts, urls. simpl.
  apply map_result_Ok in Hurls.
  split; [reflexivity|]. split; [reflexivity|]. split; [|reflexivity].
  eapply Forall2_impl; [exact Hurls|]. intros post url. apply source_url_Ok.
Qed.

(** X1: when [scrape_sub_pictures] succeeds, the stored URLs are, in the
    order of the listing, the source URL of the first preview image of every
    post whose [post_hint] is [image]; the other posts are dropped, so there
    are at most as many URLs as posts, and the PRAW handle is kept. *)
Theorem scrape_keeps_image_posts
    (self self' : Reddit.t) (subreddit sub_category : string) (n : nat) :
  Reddit.scrape_sub_pictures L self subreddit sub_category n = Ok self' ->
  exists (posts : list submission) (urls : list string),
    listing L (Reddit.reddit self) subreddit sub_category n = Ok posts
    /\ Reddit.image_urls self' = Some urls
    /\ Forall2 first_source (filter is_image_post posts) urls
    /\ (length urls <= length posts)%nat
    /\ Reddit.reddit self' = Reddit.reddit self.
Proof.
  intros H. apply scrape_Ok in H as (posts & urls & Hl & Hurls & Hall & Hr).
  exists posts, urls. repeat split; auto.
  apply Forall2_length in Hall. rewrite <- Hall. apply length_filter.
Qed.

(** X2: [scrape_sub_pictures] succeeds exactly when the listing succeeds
    and every image post has a first preview image: one image post without
    [preview], or with an empty [preview['images']], makes the whole call
    raise, and no URL is stored. *)
Theorem scrape_succeeds_iff
    (self : Reddit.t) (subreddit sub_category : string) (n : nat) :
  (exists self', Reddit.scrape_sub_pictures L self subreddit sub_category n = Ok self')
  <-> exists posts : list submission,
        listing L (Reddit.reddit self) subreddit sub_category n = Ok posts
        /\ forall post, post ∈ posts -> is_image_post post ->
             exists url, first_source post url.
Proof.
  unfold Reddit.scrape_sub_pictures.
  destruct (listing L _ _ _ _) as [posts|e].
  - split.
    + intros [self' H].
      destruct (Reddit.map_result _ _) as [urls|e] eqn:Hurls; [|discriminate].
      exists posts. split; [reflexivity|]. intros post Hin Himg.
      assert (Hall : exists ys, Reddit.map_result Reddit.source_url
                                  (filter is_image_post posts) = Ok ys) by eauto.
      apply map_result_Ok_iff in Hall. rewrite Forall_forall in Hall.
      destruct (Hall post) as [url Hurl].
      { apply list_elem_of_filter. auto. }
      exists url. by apply source_url_Ok.
    + intros (posts' & Heq & Hall). injection Heq as <-.
      assert (Hok : exists ys, Reddit.map_result Reddit.source_url
                                 (filter is_image_post posts) = Ok ys).
      { apply map_result_Ok_iff. apply Forall_forall. intros post Hin.
        apply list_elem_of_filter in Hin as [Himg Hin].
        destruct (Hall post Hin Himg) as [url Hurl].
        exists url. by apply source_url_Ok. }
      destruct Hok as [ys Hys].
      change (fun post => post_hint post = Some "image") with is_image_post.
      rewrite Hys. eauto.
  - split; [intros [self' H]; discriminate | intros (posts & H & _); discriminate].
Qed.

Lemma np_random_choice_elem {A} (a : list A) (r : nat) (x : A) :
  np_random_choice a r = Ok x -> x ∈ a.
Proof.
  unfold np_random_choice. destruct a as [|x0 a'] eqn:Ha; [discriminate|].
  rewrite <- Ha. intros H.
  assert (Hx : nth (r mod length a) a x0 = x) by congruence.
  rewrite <- Hx. apply list_elem_of_In, nth_In.
  apply Nat.mod_upper_bound. rewrite Ha. discriminate.
Qed.

(** X3: a URL that [get_random_url] returns after a successful
    [scrape_sub_pictures] is the first preview source of an image post of
    the listing. *)
Theorem random_url_is_an_image_post
    (self self' : Reddit.t) (subreddit sub_category : string) (n r : nat)
    (url : string) :
  Reddit.scrape_sub_pictures L self subreddit sub_category n = Ok self' ->
  Reddit.get_random_url self' r = Ok url ->
  exists (posts : list submission) (post : submission),
    listing L (Reddit.reddit self) subreddit sub_category n = Ok posts
    /\ post ∈ posts /\ is_image_post post /\ first_source post url.
Proof.
  intros Hscrape Hpick.
  apply scrape_Ok in Hscrape as (posts & urls & Hl & Hurls & Hall & _).
  unfold Reddit.get_random_url in Hpick. rewrite Hurls in Hpick.
  apply np_random_choice_elem in Hpick.
  apply list_elem_of_lookup in Hpick as [i Hi].
  destruct (Forall2_lookup_r _ _ _ _ _ Hall Hi) as (post & Hpost & Hsrc).
  apply list_elem_of_lookup_2 in Hpost. apply list_elem_of_filter in Hpost as [Himg Hin].
  exists posts, post. auto.
Qed.

Lemma filter_none (posts : list submission) :
  (forall post, post ∈ posts -> ~ is_image_post post) ->
  filter is_image_post posts = [].
Proof.
  induction posts as [|post posts IH]; intros Hnone; [reflexivity|].
  rewrite filter_cons_False by (apply Hnone; left).
  apply IH. intros p Hp. apply Hnone. by right.
Qed.

(** X4: when no post of the listing is an image post,
    [scrape_sub_pictures] succeeds with an empty list of URLs, and
    [get_random_url] then raises [ValueError]. *)
Theorem no_image_post_no_url
    (self : Reddit.t) (subreddit sub_category : string) (n r : nat)
    (posts : list submission) :
  listing L (Reddit.reddit self) subreddit sub_category n = Ok posts ->
  (forall post, post ∈ posts -> ~ is_image_post post) ->
  exists self', Reddit.scrape_sub_pictures L self subreddit sub_category n = Ok self'
    /\ Reddit.image_urls self' = Some []
    /\ Reddit.get_random_url self' r = Raise ValueError.
Proof.
  intros Hl Hnone. unfold Reddit.scrape_sub_pictures. rewrite Hl.
  change (fun post => post_hint post = Some "image") with is_image_post.
  rewrite (filter_none _ Hnone). simpl. eexists. repeat split.
Qed.
End Scraping.

Section Loop.
Variable L : libs.
Variable W : Z.

Lemma narrow_down_step (i : nat) (l : list contour) :
  Image.narrow_down L W i l =
  match l !! i with
  | None => Ok l
  | Some c =>
      if rejected L W c
      then match Image.list_remove L i c l with
           | Raise e => Raise e
           | Ok l' => Image.narrow_down L W (S i) l'
           end
      else Image.narrow_down L W (S i) l
  end.
Proof.
  rewrite narrow_down_eq. destruct (l !! i) as [c|]; [|reflexivity].
  unfold rejected. destruct (boundingRect L c) as [[[x y] w] h]. reflexivity.
Qed.

Lemma list_remove_length (i : nat) (c : contour) (l l' : list contour) :
  Image.list_remove L i c l = Ok l' -> length l = S (length l').
Proof.
  revert i l'. induction l as [|a l IH]; intros [|i] l'; simpl; try congruence.
  destruct (ndarray_eq L a c) as [[]|]; try congruence.
  destruct (Image.list_remove L i c l) eqn:E; try congruence.
  intros H. injection H as <-. simpl. f_equal. eauto.
Qed.

Lemma list_remove_sublist (i : nat) (c : contour) (l l' : list contour) :
  Image.list_remove L i c l = Ok l' -> l' `sublist_of` l.
Proof.
  revert i l'. induction l as [|a l IH]; intros [|i] l'; simpl; try congruence.
  - intros H. injection H as <-. by apply sublist_cons.
  - destruct (ndarray_eq L a c) as [[]|]; try congruence.
    + intros H. injection H as <-. by apply sublist_cons.
    + destruct (Image.list_remove L i c l) eqn:E; try congruence.
      intros H. injection H as <-. apply sublist_skip. eauto.
Qed.

(** Induction along the walk of the loop. *)
Lemma narrow_down_walk (P : nat -> list contour -> list contour -> Prop) :
  (forall i l, l !! i = None -> P i l l) ->
  (forall i l c r, l !! i = Some c -> rejected L W c = false ->
     Image.narrow_down L W (S i) l = Ok r -> P (S i) l r -> P i l r) ->
  (forall i l c l1 r, l !! i = Some c -> rejected L W c = true ->
     Image.list_remove L i c l = Ok l1 ->
     Image.narrow_down L W (S i) l1 = Ok r -> P (S i) l1 r -> P i l r) ->
  forall i l r, Image.narrow_down L W i l = Ok r -> P i l r.
Proof.
  intros Hend Hkeep Hdrop i l.
  remember (length l - i)%nat as n eqn:Hn. revert i l Hn.
  induction n as [n IH] using lt_wf_ind. intros i l Hn r H.
  rewrite narrow_down_step in H.
  destruct (l !! i) as [c|] eqn:Hc.
  - pose proof (lookup_lt_Some _ _ _ Hc) as Hlt.
    destruct (rejected L W c) eqn:Hr.
    + destruct (Image.list_remove L i c l) as [l1|e] eqn:Hrem; [|discriminate].
      pose proof (list_remove_length _ _ _ _ Hrem) as Hlen.
      eapply Hdrop; eauto. eapply (IH (length l1 - S i)%nat); eauto. lia.
    + eapply Hkeep; eauto. eapply (IH (length l - S i)%nat); eauto. lia.
  - injection H as <-. by apply Hend.
Qed.

(** X5: the contours [get_text_boxes] returns are a subsequence of the
    ones [cv2.findContours] found: the loop adds nothing and keeps the
    order. *)
Theorem narrow_down_sublist (contours accepted : list contour) :
  Image.narrow_down L W 0 contours = Ok accepted ->
  accepted `sublist_of` contours.
Proof.
  apply (narrow_down_walk (fun _ l r => r `sublist_of` l)).
  - reflexivity.
  - auto.
  - intros i l c l1 r _ _ Hrem _ Hsub.
    etrans; [exact Hsub|]. eapply list_remove_sublist; eauto.
Qed.

(** X6: whatever their shapes, the loop removes at most every other
    contour: at least half of the contours found, rounded down, are
    returned. *)
Theorem narrow_down_keeps_half (contours accepted : list contour) :
  Image.narrow_down L W 0 contours = Ok accepted ->
  (length contours <= 2 * length accepted + 1)%nat.
Proof.
  intros H.
  enough (Hgen : (0 <= length contours + 1 ->
                  length contours + 0 <= 2 * length accepted + 1)%nat) by lia.
  revert H.
  apply (narrow_down_walk
           (fun i l r => (i <= length l + 1 -> length l + i <= 2 * length r + 1)%nat)).
  - intros i l _ Hi. lia.
  - intros i l c r Hc _ _ IH Hi. apply lookup_lt_Some in Hc. lia.
  - intros i l c l1 r Hc _ Hrem _ IH Hi.
    apply lookup_lt_Some in Hc. apply list_remove_length in Hrem. lia.
Qed.

(** X7: when the test rejects no contour, the loop returns the list
    unchanged and raises nothing, whatever NumPy answers when arrays are
    compared. *)
Theorem narrow_down_nothing_to_remove (contours : list contour) :
  Forall (fun c => rejected L W c = false) contours ->
  Image.narrow_down L W 0 contours = Ok contours.
Proof.
  intros Hall.
  enough (Hgen : forall n i, (n = length contours - i)%nat ->
                 Image.narrow_down L W i contours = Ok contours) by eauto.
  induction n as [|n IH]; intros i Hn; rewrite narrow_down_step.
  - rewrite lookup_ge_None_2 by lia. reflexivity.
  - destruct (contours !! i) as [c|] eqn:Hc; [|reflexivity].
    rewrite Forall_lookup in Hall. rewrite (Hall i c Hc).
    apply IH. lia.
Qed.

End Loop.

Section LoopAsFilter.
Variable L : libs.
Variable W : Z.

Lemma list_remove_delete (i : nat) (c : contour) (l : list contour) :
  l !! i = Some c ->
  (forall (j : nat) (a : contour),
     (j < i)%nat -> l !! j = Some a -> ndarray_eq L a c = Ok false) ->
  Image.list_remove L i c l = Ok (delete i l).
Proof.
  revert i. induction l as [|a l IH]; intros [|i] Hc Heq; simpl in *; try discriminate.
  - reflexivity.
  - rewrite (Heq 0%nat a) by (reflexivity || lia).
    rewrite (IH i Hc); [reflexivity|].
    intros j b Hj Hb. apply (Heq (S j) b); [lia | exact Hb].
Qed.

Lemma earlier_differ_delete (k : nat) (l : list contour) :
  earlier_differ L W l -> earlier_differ L W (delete k l).
Proof.
  intros Heq j i a c Hji Ha Hc.
  destruct (decide (i < k)%nat) as [Hik|Hik].
  - rewrite list_lookup_delete_lt in Ha, Hc by lia. by apply (Heq j i).
  - rewrite list_lookup_delete_ge in Hc by lia.
    destruct (decide (j < k)%nat) as [Hjk|Hjk].
    + rewrite list_lookup_delete_lt in Ha by lia. apply (Heq j (S i)); [lia|done..].
    + rewrite list_lookup_delete_ge in Ha by lia. apply (Heq (S j) (S i)); [lia|done..].
Qed.

Lemma narrow_down_filter_from (n : nat) :
  forall (i : nat) (l : list contour),
    (n = length l - i)%nat ->
    earlier_differ L W l ->
    (forall (j : nat) (c c' : contour),
       (i <= j)%nat -> l !! j = Some c -> l !! S j = Some c' ->
       rejected L W c = true -> rejected L W c' = false) ->
    Image.narrow_down L W i l
    = Ok (take i l ++ filter (fun c => rejected L W c = false) (drop i l)).
Proof.
  induction n as [n IH] using lt_wf_ind. intros i l Hn Heq Hadj.
  rewrite narrow_down_step.
  destruct (l !! i) as [c|] eqn:Hc.
  - pose proof (lookup_lt_Some _ _ _ Hc) as Hlt.
    rewrite (drop_S _ _ _ Hc).
    destruct (rejected L W c) eqn:Hr.
    + rewrite (list_remove_delete _ _ _ Hc)
        by (intros j a Hj Ha; by apply (Heq j i)).
      rewrite filter_cons_False by congruence.
      assert (Hlen : length (delete i l) = (length l - 1)%nat).
      { rewrite length_delete by eauto. lia. }
      rewrite (IH (length (delete i l) - S i)%nat) with (i := S i) (l := delete i l);
        [|lia|reflexivity|by apply earlier_differ_delete|].
      * f_equal. rewrite delete_take_drop.
        assert (Hi : i = length (take i l)) by (rewrite length_take_le; lia).
        pose proof (take_app_add' (take i l) (drop (S i) l) i 1 Hi) as Ht.
        pose proof (drop_app_add' (take i l) (drop (S i) l) i 1 Hi) as Hd.
        rewrite Nat.add_1_r in Ht, Hd. rewrite Ht, Hd.
        destruct (drop (S i) l) as [|c' R] eqn:HR;
          [simpl; rewrite app_nil_r; reflexivity|].
        assert (Hc' : l !! S i = Some c').
        { rewrite <- (Nat.add_0_r (S i)), <- lookup_drop, HR. reflexivity. }
        simpl. rewrite drop_0.
        rewrite filter_cons_True by (eapply (Hadj i); eauto).
        rewrite <- app_assoc. reflexivity.
      * intros j c1 c2 Hj H1 H2.
        rewrite list_lookup_delete_ge in H1, H2 by lia.
        apply (Hadj (S j)); [lia | exact H1 | exact H2].
    + rewrite filter_cons_True by exact Hr.
      rewrite (IH (length l - S i)%nat) with (i := S i) (l := l);
        [|lia|reflexivity|exact Heq|].
      * rewrite (take_S_r _ _ _ Hc), <- app_assoc. reflexivity.
      * intros j c1 c2 Hj. apply Hadj. lia.
  - apply lookup_ge_None in Hc.
    rewrite take_ge, drop_ge by lia. rewrite app_nil_r. reflexivity.
Qed.

(** X8: when NumPy answers [False] each time a rejected contour is compared
    with a contour before it in the list (as NumPy before 1.25 does for two
    contours with different numbers of points, neither a single point), and
    no rejected contour directly follows another one, the loop returns
    exactly the contours that pass the test, in order. *)
Theorem narrow_down_is_filter (contours : list contour) :
  earlier_differ L W contours ->
  no_adjacent_rejected L W contours ->
  Image.narrow_down L W 0 contours
  = Ok (filter (fun c => rejected L W c = false) contours).
Proof.
  intros Heq Hadj.
  rewrite (narrow_down_filter_from (length contours - 0) 0 contours eq_refl Heq).
  - reflexivity.
  - intros j c c' _. apply Hadj.
Qed.

End LoopAsFilter.

Section FilterInvariant.
Variable L : libs.
Variable W : Z.

Lemma rejected_false (c : contour) :
  rejected L W c = false <-> spec_accepted (boundingRect L c) W.
Proof.
  unfold rejected, spec_accepted, Image.too_narrow.
  destruct (boundingRect L c) as [[[x y] w] h].
  rewrite orb_false_iff, Z.gtb_ltb, !Z.ltb_ge. reflexivity.
Qed.

(** X9: when NumPy answers [False] each time a rejected contour is compared
    with a contour before it in the list, and no rejected contour directly
    follows another one, every returned Region is at least as wide as tall
    and at least 15% of the picture's width, and every contour that is so is
    returned. *)
Theorem narrow_down_accepts_only (contours accepted : list contour) :
  earlier_differ L W contours ->
  no_adjacent_rejected L W contours ->
  Image.narrow_down L W 0 contours = Ok accepted ->
  Forall (fun c => spec_accepted (boundingRect L c) W) accepted
  /\ forall c, c ∈ contours -> spec_accepted (boundingRect L c) W -> c ∈ accepted.
Proof.
  intros Heq Hadj H.
  rewrite (narrow_down_filter_from L W (length contours - 0) 0 contours eq_refl Heq) in H.
  - simpl in H. injection H as <-. split.
    + apply Forall_forall. intros c Hc.
      apply list_elem_of_filter in Hc as [Hc _]. by apply rejected_false.
    + intros c Hin Hacc. apply list_elem_of_filter. split; [|exact Hin].
      by apply rejected_false.
  - intros j c c' _. apply Hadj.
Qed.
End FilterInvariant.

(** ** Thresholding and cropping *)

(** X10: the thresholding step, an inverse binary threshold followed by
    [255 - thresh], gives the same mask as one call
    [cv2.threshold(gray, 250, 255, cv2.THRESH_BINARY)]. *)
Theorem threshold_step_is_binary_threshold (gray : mask) :
  threshold_step gray = snd (cv2_threshold gray 250 255 THRESH_BINARY).
Proof. rewrite threshold_step_map. reflexivity. Qed.

Lemma py_slice_length {A} (l : list A) (lo n : Z) :
  0 <= lo -> 0 <= n ->
  length (py_slice l lo (lo + n))
  = Z.to_nat (Z.min n (Z.max 0 (Z.of_nat (length l) - lo))).
Proof.
  intros Hlo Hn. unfold py_slice, slice_bound.
  replace (lo <? 0) with false by (symmetry; apply Z.ltb_ge; lia).
  replace (lo + n <? 0) with false by (symmetry; apply Z.ltb_ge; lia).
  rewrite length_take, length_drop. lia.
Qed.

Section Crops.
Variable L : libs.

(** X11: a crop is never larger than its bounding rectangle: it has the
    rows and columns of the rectangle that fall inside the mask, no row
    when the rectangle lies outside, and exactly [h] rows of [w] pixels when
    the rectangle lies inside the mask. *)
Theorem crop_shape (thresh : mask) (c : contour) (x y w h : Z) (rows cols : nat) :
  boundingRect L c = (x, y, w, h) ->
  0 <= x -> 0 <= y -> 0 <= w -> 0 <= h ->
  length thresh = rows ->
  Forall (fun row => length row = cols) thresh ->
  let crop := Image.crop L thresh c in
  length crop = Z.to_nat (Z.min h (Z.max 0 (Z.of_nat rows - y)))
  /\ Forall (fun row => length row = Z.to_nat (Z.min w (Z.max 0 (Z.of_nat cols - x)))) crop
  /\ (x + w <= Z.of_nat cols -> y + h <= Z.of_nat rows ->
      length crop = Z.to_nat h /\ Forall (fun row => length row = Z.to_nat w) crop).
Proof.
  intros Hb Hx Hy Hw Hh Hrows Hcols crop.
  assert (Hlen : length crop = Z.to_nat (Z.min h (Z.max 0 (Z.of_nat rows - y)))).
  { unfold crop, Image.crop, ndarray_slice2. rewrite Hb, length_map, <- Hrows.
    by apply py_slice_length. }
  assert (Hall : Forall (fun row => length row
                           = Z.to_nat (Z.min w (Z.max 0 (Z.of_nat cols - x)))) crop).
  { unfold crop, Image.crop, ndarray_slice2. rewrite Hb.
    apply Forall_forall. intros row Hrow.
    apply list_elem_of_In, in_map_iff in Hrow as (row0 & <- & Hin).
    assert (Hin0 : row0 ∈ thresh).
    { apply list_elem_of_In in Hin. unfold py_slice in Hin.
      apply subseteq_take, subseteq_drop in Hin. exact Hin. }
    rewrite Forall_forall in Hcols.
    rewrite py_slice_length, (Hcols row0 Hin0) by assumption. reflexivity. }
  split; [exact Hlen|]. split; [exact Hall|].
  intros Hxw Hyh. split.
  - rewrite Hlen. lia.
  - eapply Forall_impl; [exact Hall|]. simpl. intros row ->. lia.
Qed.
End Crops.

Lemma keeps_files_bind {A B} (m : M A) (f : A -> M B) :
  keeps_files m -> (forall a, keeps_files (f a)) -> keeps_files (bind m f).
Proof.
  intros Hm Hf w. unfold bind. specialize (Hm w).
  destruct (m w) as [[a|e] w1]; simpl in *; [|exact Hm].
  rewrite (Hf a w1). exact Hm.
Qed.

Lemma keeps_files_ret {A} (a : A) : keeps_files (ret a).
Proof. intros w. reflexivity. Qed.

Lemma keeps_files_os_mkdir (p : path) : keeps_files (os_mkdir p).
Proof.
  intros w. unfold os_mkdir.
  destruct (exists_b p w); [reflexivity|]. destruct (_ || _); reflexivity.
Qed.

Lemma keeps_files_for_each {A} (l : list A) (body : A -> M unit) :
  (forall x, keeps_files (body x)) -> keeps_files (for_each l body).
Proof.
  intros Hb. induction l as [|x l IH]; simpl.
  - apply keeps_files_ret.
  - apply keeps_files_bind; auto.
Qed.

Lemma keeps_files_make_if_missing (p : path) : keeps_files (Image.make_if_missing p).
Proof.
  unfold Image.make_if_missing. apply keeps_files_bind; [intros w; reflexivity|].
  intros [|]; [apply keeps_files_ret|].
  unfold os_makedirs. apply keeps_files_bind; [|intros _; apply keeps_files_os_mkdir].
  apply keeps_files_for_each. intros q.
  apply keeps_files_bind; [intros w; reflexivity|].
  intros [|]; [apply keeps_files_ret | apply keeps_files_os_mkdir].
Qed.

Lemma fails_quietly_bind_l {A B} (m : M A) (f : A -> M B) :
  fails_quietly m -> fails_quietly (bind m f).
Proof.
  intros Hm w. unfold bind. specialize (Hm w).
  destruct (m w) as [[a|e] w1]; simpl in *; [destruct Hm; discriminate | exact Hm].
Qed.

Lemma fails_quietly_bind_r {A B} (m : M A) (f : A -> M B) :
  keeps_files m -> (forall a, fails_quietly (f a)) -> fails_quietly (bind m f).
Proof.
  intros Hm Hf w. unfold bind. specialize (Hm w).
  destruct (m w) as [[a|e] w1]; simpl in *; [|auto].
  destruct (Hf a w1) as [Hok Hfiles]. split; [exact Hok | congruence].
Qed.

Section Failures.
Variable L : libs.

Lemma urlretrieve_refused (url : pyval) (e : exn) (p : path) (w : world) :
  fetch_failure L url = Some (Refused e) ->
  Image.urlretrieve L url p w = (Raise e, w).
Proof.
  intros Hu. unfold Image.urlretrieve.
  destruct url; simpl in Hu; try (injection Hu as <-; reflexivity).
  destruct (urlopen L s); [discriminate Hu|]. injection Hu as ->. reflexivity.
Qed.

Lemma urlretrieve_fails (url : pyval) (e : exn) (p : path) :
  fetch_failure L url = Some (Refused e) ->
  fails_quietly (Image.urlretrieve L url p).
Proof.
  intros Hu w. rewrite (urlretrieve_refused url e p w Hu). split; reflexivity.
Qed.

(** X12: when the URL is not a string, or [urlopen] refuses it before
    [urlretrieve] opens the output file (an unknown URL type, a host that
    cannot be reached), [Image(url)] raises and no file is written or
    changed, in any state of the file system. *)
Theorem refused_url_writes_nothing (url : pyval) (e : exn) (uid : string) (w : world) :
  fetch_failure L url = Some (Refused e) ->
  is_Ok (fst (Image.__init__ L url uid w)) = false
  /\ files (snd (Image.__init__ L url uid w)) = files w.
Proof.
  intros Hu. revert w.
  change (fails_quietly (Image.__init__ L url uid)).
  unfold Image.__init__. apply fails_quietly_bind_l.
  unfold Image.save_image_from_url.
  apply fails_quietly_bind_r; [apply keeps_files_make_if_missing|]. intros _.
  apply fails_quietly_bind_r.
  { apply keeps_files_for_each. intros d. apply keeps_files_make_if_missing. }
  intros _. apply fails_quietly_bind_l. by apply (urlretrieve_fails url e).
Qed.
End Failures.

Lemma exists_b_false (p : path) (w : world) :
  p ∉ dirs w -> files w !! p = None -> exists_b p w = false.
Proof.
  intros Hd Hf. unfold exists_b. rewrite Hf.
  rewrite (bool_decide_eq_false_2 _ Hd). apply bool_decide_eq_false_2.
  by intros [x Hx].
Qed.

Lemma exists_b_dir (p : path) (w : world) : p ∈ dirs w -> exists_b p w = true.
Proof. intros Hd. unfold exists_b. by rewrite (bool_decide_eq_true_2 _ Hd). Qed.

Lemma os_mkdir_run (p : path) (w : world) :
  p ∉ dirs w -> files w !! p = None ->
  dirname p = [] \/ dirname p ∈ dirs w ->
  exists w', os_mkdir p w = (Ok tt, w') /\ adds_dirs {[ p ]} w w'.
Proof.
  intros Hd Hf Hparent. unfold os_mkdir. rewrite exists_b_false by assumption.
  replace (bool_decide (dirname p = []) || bool_decide (dirname p ∈ dirs w)) with true.
  - eexists. split; [reflexivity|]. repeat split.
  - symmetry. apply orb_true_iff.
    destruct Hparent as [H|H]; [left|right]; by apply bool_decide_eq_true_2.
Qed.

Lemma ensure_dir_run (q : path) (w : world) :
  files w !! q = None ->
  dirname q = [] \/ dirname q ∈ dirs w ->
  exists w',
    (do e <- os_path_exists q; if e then ret tt else os_mkdir q) w = (Ok tt, w')
    /\ adds_dirs {[ q ]} w w'.
Proof.
  intros Hf Hparent. unfold bind at 1, os_path_exists at 1.
  destruct (decide (q ∈ dirs w)) as [Hin|Hout].
  - rewrite exists_b_dir by assumption. exists w. split; [reflexivity|].
    repeat split. symmetry. apply subseteq_union_1_L. by apply singleton_subseteq_l.
  - rewrite exists_b_false by assumption. by apply os_mkdir_run.
Qed.

Lemma for_each_cons_step {A} (x : A) (l : list A) (body : A -> M unit) (w w1 : world) :
  body x w = (Ok tt, w1) -> for_each (x :: l) body w = for_each l body w1.
Proof. intros H. simpl. by rewrite (bind_step _ _ _ _ _ H). Qed.

Lemma run_dirs_union (uid : string) (D : gset path) :
  let top : gset path := {[ ["images"] ]} in
  let run : gset path := {[ ["images"; uid] ]} in
  ({[ ["images"; uid; "output_texts"] ]} ∪ (run ∪ top)) ∪
  (({[ ["images"; uid; "output_images"] ]} ∪ (run ∪ top)) ∪
   (({[ ["images"; uid; "input_images"] ]} ∪ (run ∪ top)) ∪ (top ∪ D)))
  = run_dirs uid ∪ D.
Proof.
  intros top run. unfold run_dirs. fold top run.
  apply set_eq. intros x. rewrite !elem_of_union. tauto.
Qed.

Section Forward.
Variable L : libs.

Lemma make_images_run (w : world) :
  files w !! ["images"] = None ->
  exists w', Image.make_if_missing ["images"] w = (Ok tt, w')
             /\ adds_dirs {[ ["images"] ]} w w'.
Proof.
  intros Hf. unfold Image.make_if_missing. unfold bind at 1, os_path_exists at 1.
  destruct (decide (["images"] ∈ dirs w)) as [Hin|Hout].
  - rewrite exists_b_dir by assumption. exists w. split; [reflexivity|].
    repeat split. symmetry. apply subseteq_union_1_L. by apply singleton_subseteq_l.
  - rewrite exists_b_false by assumption. unfold os_makedirs. simpl.
    unfold bind at 1, ret at 1. apply os_mkdir_run; auto.
Qed.

Lemma make_subdir_run (a b c : string) (w : world) :
  files w !! [a] = None -> files w !! [a; b] = None -> files w !! [a; b; c] = None ->
  [a; b; c] ∉ dirs w ->
  exists w', Image.make_if_missing [a; b; c] w = (Ok tt, w')
             /\ adds_dirs ({[ [a; b; c] ]} ∪ ({[ [a; b] ]} ∪ {[ [a] ]})) w w'.
Proof.
  intros Hfa Hfb Hfc Hc.
  unfold Image.make_if_missing. unfold bind at 1, os_path_exists at 1.
  rewrite exists_b_false by assumption. unfold os_makedirs.
  change (ancestors [a; b; c]) with [[a]; [a; b]].
  destruct (ensure_dir_run [a] w Hfa) as (w1 & H1 & Hf1 & Hh1 & Hd1); [by left|].
  destruct (ensure_dir_run [a; b] w1) as (w2 & H2 & Hf2 & Hh2 & Hd2).
  { congruence. }
  { right. simpl. rewrite Hd1. apply elem_of_union_l. by apply elem_of_singleton. }
  destruct (os_mkdir_run [a; b; c] w2) as (w3 & H3 & Hf3 & Hh3 & Hd3).
  { rewrite Hd2, Hd1. rewrite !not_elem_of_union, !not_elem_of_singleton.
    repeat split; [discriminate | discriminate | exact Hc]. }
  { congruence. }
  { right. simpl. rewrite Hd2. apply elem_of_union_l. by apply elem_of_singleton. }
  exists w3. split.
  - set (body := fun q : path =>
                   do e <- os_path_exists q; if e then ret tt else os_mkdir q) in *.
    change (body [a] w = (Ok tt, w1)) in H1.
    change (body [a; b] w1 = (Ok tt, w2)) in H2.
    erewrite bind_step; [exact H3|].
    rewrite (for_each_cons_step [a] _ body w w1 H1).
    rewrite (for_each_cons_step [a; b] _ body w1 w2 H2).
    reflexivity.
  - repeat split; [congruence | congruence |].
    rewrite Hd3, Hd2, Hd1. by rewrite !(assoc_L (∪)).
Qed.

Lemma run_dirs_made (uid : string) (w : world) :
  fresh_run uid w ->
  files w !! ["images"] = None ->
  exists w',
    (Image.make_if_missing ["images"] ;;
     for_each ["input_images"; "output_images"; "output_texts"]
       (fun directory =>
          Image.make_if_missing (os_path_join ["images"; uid] [directory]))) w
    = (Ok tt, w')
    /\ adds_dirs (run_dirs uid) w w'.
Proof.
  intros Hfresh Himages.
  assert (Hpre1 : forall d : string, ["images"; uid] `prefix_of` ["images"; uid; d]).
  { intros d. by exists [d]. }
  assert (Hpre0 : ["images"; uid] `prefix_of` ["images"; uid]) by reflexivity.
  destruct (Hfresh _ Hpre0) as [Hd0 Hf0].
  destruct (make_images_run w Himages) as (wa & Ha & Hfa & Hha & Hda).
  destruct (make_subdir_run "images" uid "input_images" wa)
    as (wb & Hb & Hfb & Hhb & Hdb).
  { congruence. } { congruence. }
  { rewrite Hfa. apply (Hfresh _ (Hpre1 _)). }
  { rewrite Hda. rewrite not_elem_of_union, not_elem_of_singleton.
    split; [discriminate | apply (Hfresh _ (Hpre1 _))]. }
  destruct (make_subdir_run "images" uid "output_images" wb)
    as (wc & Hc & Hfc & Hhc & Hdc).
  { congruence. } { congruence. }
  { rewrite Hfb, Hfa. apply (Hfresh _ (Hpre1 _)). }
  { rewrite Hdb, Hda. rewrite !not_elem_of_union, !not_elem_of_singleton.
    repeat split; try discriminate. apply (Hfresh _ (Hpre1 _)). }
  destruct (make_subdir_run "images" uid "output_texts" wc)
    as (wd & Hd & Hfd & Hhd & Hdd).
  { congruence. } { congruence. }
  { rewrite Hfc, Hfb, Hfa. apply (Hfresh _ (Hpre1 _)). }
  { rewrite Hdc, Hdb, Hda. rewrite !not_elem_of_union, !not_elem_of_singleton.
    repeat split; try discriminate. apply (Hfresh _ (Hpre1 _)). }
  exists wd. split.
  - rewrite (bind_step _ _ _ _ _ Ha).
    set (body := fun directory : string =>
                   Image.make_if_missing (os_path_join ["images"; uid] [directory])).
    rewrite (for_each_cons_step "input_images" _ body wa wb Hb).
    rewrite (for_each_cons_step "output_images" _ body wb wc Hc).
    rewrite (for_each_cons_step "output_texts" _ body wc wd Hd).
    reflexivity.
  - repeat split; [congruence | congruence |].
    rewrite Hdd, Hdc, Hdb, Hda. apply run_dirs_union.
Qed.

End Forward.

Lemma bind_assoc_step {A B C} (m : M A) (n : M B) (k : B -> M C)
    (w w' : world) (b : B) :
  bind m (fun _ => n) w = (Ok b, w') -> bind m (fun _ => bind n k) w = k b w'.
Proof.
  unfold bind. destruct (m w) as [[a|e] w1]; [|discriminate].
  intros ->. reflexivity.
Qed.

Lemma run_dirs_elem (uid : string) (p : path) :
  p ∈ run_dirs uid -> (length p <= 3)%nat.
Proof.
  unfold run_dirs. rewrite !elem_of_union, !elem_of_singleton.
  intros [->|[->|[->|[->| ->]]]]; simpl; lia.
Qed.

Section Fetching.
Variable L : libs.

Lemma not_in_run_dirs (uid d f : string) (w w' : world) :
  fresh_run uid w -> dirs w' = run_dirs uid ∪ dirs w ->
  ["images"; uid; d] ++ [f] ∉ dirs w'.
Proof.
  intros Hfresh Hd. rewrite Hd, not_elem_of_union. split.
  - intros Hin. apply run_dirs_elem in Hin. simpl in Hin. lia.
  - apply Hfresh. by exists [d; f].
Qed.

Lemma writable_in_run (uid d f : string) (w w' : world) :
  fresh_run uid w -> dirs w' = run_dirs uid ∪ dirs w ->
  ["images"; uid; d] ∈ run_dirs uid ->
  writable (["images"; uid; d] ++ [f]) w' = true.
Proof.
  intros Hfresh Hdirs Hd. unfold writable. apply andb_true_intro. split.
  - apply orb_true_iff. right. apply bool_decide_eq_true_2.
    unfold dirname. rewrite removelast_last, Hdirs. by apply elem_of_union_l.
  - apply negb_true_iff, bool_decide_eq_false_2. by eapply not_in_run_dirs.
Qed.

Lemma input_images_in (uid : string) : ["images"; uid; "input_images"] ∈ run_dirs uid.
Proof. unfold run_dirs. rewrite !elem_of_union, !elem_of_singleton. auto. Qed.

(** The fetch step on a fresh run identifier, for a URL that can be
    retrieved. *)
Lemma fetch_run (uid u data : string) (w : world) :
  fresh_run uid w ->
  files w !! ["images"] = None ->
  urlopen L u = Some data ->
  exists w1,
    Image.save_image_from_url L (VStr u) uid ["images"; uid] w
    = (Ok (input_png uid, (fun _ => fresh (dom (heap w))) <$> imdecode L data), w1)
    /\ files w1 = <[ input_png uid := data ]> (files w)
    /\ dirs w1 = run_dirs uid ∪ dirs w
    /\ heap w1 = match imdecode L data with
                 | Some img => <[ fresh (dom (heap w)) := img ]> (heap w)
                 | None => heap w
                 end.
Proof.
  intros Hfresh Himages Hopen.
  destruct (run_dirs_made uid w Hfresh Himages) as (wd & Hdirs & Hadds).
  destruct Hadds as (Hf & Hh & Hd).
  pose proof (writable_in_run uid "input_images" "input.png" w wd Hfresh Hd
                (input_images_in uid)) as Hw.
  unfold Image.save_image_from_url. rewrite (bind_assoc_step _ _ _ _ _ _ Hdirs).
  change (os_path_join ["images"; uid] ["input_images"; "input.png"])
    with (input_png uid).
  change (["images"; uid; "input_images"] ++ ["input.png"]) with (input_png uid) in Hw.
  unfold Image.urlretrieve. rewrite Hopen.
  unfold bind at 1, write_file at 1. rewrite Hw.
  unfold bind at 1, Image.cv2_imread at 1. simpl. rewrite lookup_insert_eq.
  destruct (imdecode L data) as [img|]; simpl.
  - unfold bind, alloc, ret. simpl. rewrite Hh. eexists. split; [reflexivity|].
    simpl. rewrite Hf, Hd. auto.
  - unfold ret. eexists. split; [reflexivity|]. simpl. rewrite Hf, Hd, Hh. auto.
Qed.

(** The retrieval that fails with [f], once the directories of the run
    are there. *)
Lemma urlretrieve_failure (url : pyval) (f : failure) (uid : string) (w wd : world) :
  fresh_run uid w ->
  files wd = files w ->
  dirs wd = run_dirs uid ∪ dirs w ->
  fetch_failure L url = Some f ->
  exists w',
    Image.urlretrieve L url (input_png uid) wd = (Raise (failure_exn f), w')
    /\ files w' = failure_files f (input_png uid) (files w)
    /\ dirs w' = run_dirs uid ∪ dirs w.
Proof.
  intros Hfresh Hf Hd Hu.
  pose proof (writable_in_run uid "input_images" "input.png" w wd Hfresh Hd
                (input_images_in uid)) as Hw.
  change (["images"; uid; "input_images"] ++ ["input.png"]) with (input_png uid) in Hw.
  destruct f as [e|received e].
  - exists wd. rewrite (urlretrieve_refused L url e _ wd Hu). auto.
  - unfold Image.urlretrieve. destruct url; simpl in Hu; try discriminate Hu.
    destruct (urlopen L s); [discriminate Hu|]. injection Hu as ->.
    unfold bind, write_file, raise. rewrite Hw.
    eexists. split; [reflexivity|]. simpl. rewrite Hf. auto.
Qed.

(** X13: on a fresh run identifier a URL that cannot be retrieved makes
    [Image(url)] raise the exception of the retrieval ([TypeError] when the
    URL is no string, [ValueError] for an unknown URL type, [URLError] when
    the host cannot be reached or the transfer breaks) after the directories
    of the run were made: they stay behind.  When [urlopen] refused the URL
    no file was written; when the transfer broke after [urlretrieve] opened
    the output file, [input.png] holds the bytes received so far. *)
Theorem failed_download_leaves_directories (url : pyval) (f : failure) (uid : string)
    (w : world) :
  fresh_run uid w ->
  files w !! ["images"] = None ->
  fetch_failure L url = Some f ->
  exists w',
    Image.__init__ L url uid w = (Raise (failure_exn f), w')
    /\ files w' = failure_files f (input_png uid) (files w)
    /\ dirs w' = run_dirs uid ∪ dirs w.
Proof.
  intros Hfresh Himages Hu.
  destruct (run_dirs_made uid w Hfresh Himages) as (wd & Hdirs & Hf & Hh & Hd).
  destruct (urlretrieve_failure url f uid w wd Hfresh Hf Hd Hu) as (w' & Hget & Hfd).
  exists w'. split; [|exact Hfd].
  unfold Image.__init__. apply bind_Raise.
  unfold Image.save_image_from_url. rewrite (bind_assoc_step _ _ _ _ _ _ Hdirs).
  apply bind_Raise. exact Hget.
Qed.

(** X14: when the download is not a picture, [cv2.imread] returns [None]
    and [Image(url)] raises [AttributeError] on [self.image.shape]; the
    downloaded bytes stay in [input_images/input.png] and no buffer was
    allocated. *)
Theorem undecodable_download (uid u data : string) (w : world) :
  fresh_run uid w ->
  files w !! ["images"] = None ->
  urlopen L u = Some data ->
  imdecode L data = None ->
  exists w',
    Image.__init__ L (VStr u) uid w = (Raise AttributeError, w')
    /\ files w' = <[ input_png uid := data ]> (files w)
    /\ heap w' = heap w.
Proof.
  intros Hfresh Himages Hopen Hdec.
  destruct (fetch_run uid u data w Hfresh Himages Hopen) as (w1 & Hrun & Hf & _ & Hh).
  rewrite Hdec in Hrun, Hh. simpl in Hrun.
  exists w1. split; [|auto].
  unfold Image.__init__.
  change (os_path_join ["images"] [uid]) with ["images"; uid].
  rewrite (bind_step _ _ _ _ _ Hrun). reflexivity.
Qed.

End Fetching.

Section WholeRun.
Variable L : libs.




(** X16: a successful [Image(url)] writes [input.png] and [text.txt] and
    nothing else; in particular it leaves [contours.png] as it was, which
    only [draw_contours] writes. *)
Theorem init_writes_two_files (url : pyval) (uid : string) (w w' : world)
    (self : Image.t) :
  Image.__init__ L url uid w = (Ok self, w') ->
  exists u data : string,
    url = VStr u /\ urlopen L u = Some data
    /\ files w' = <[ text_txt uid := str_join newline (Image.contour_texts self) ]>
                    (<[ input_png uid := data ]> (files w))
    /\ files w' !! contours_png uid = files w !! contours_png uid.
Proof.
  intros H. apply init_Ok in H as (w1 & l & Hsave & _ & _ & Hwrite & _).
  apply write_file_Ok in Hwrite as (-> & _ & _).
  apply save_image_from_url_Ok in Hsave as (u & data & -> & Hopen & Hfiles & _).
  exists u, data. simpl. rewrite Hfiles.
  split; [reflexivity|]. split; [exact Hopen|]. split; [reflexivity|].
  rewrite lookup_insert_ne by discriminate. by rewrite lookup_insert_ne by discriminate.
Qed.

(** X17: [draw_contours] can be repeated: a second call succeeds like the
    first, leaves the files as the first call left them, and the decoded
    picture is still unchanged. *)
Theorem draw_contours_twice (self : Image.t) (w : world) (img : bgr_image) :
  heap w !! Image.image self = Some img ->
  Image.path self ++ ["output_images"] ∈ dirs w ->
  Image.path self ++ ["output_images"; "contours.png"] ∉ dirs w ->
  exists w1 w2 : world,
    Image.draw_contours L self true w = (Ok tt, w1)
    /\ Image.draw_contours L self true w1 = (Ok tt, w2)
    /\ files w2 = files w1
    /\ heap w2 !! Image.image self = Some img.
Proof.
  intros Himg Hdir Hout.
  destruct (draw_contours_Ok L self w img Himg Hdir Hout) as [Hne Hrun].
  set (w1 := set_files _ _) in Hrun.
  assert (Himg1 : heap w1 !! Image.image self = Some img).
  { subst w1. simpl. by rewrite lookup_insert_ne. }
  destruct (draw_contours_Ok L self w1 img Himg1 Hdir Hout) as [Hne2 Hrun2].
  eexists w1, _. split; [exact Hrun|]. split; [exact Hrun2|]. split.
  - subst w1. simpl. apply insert_insert_eq.
  - simpl. by rewrite lookup_insert_ne.
Qed.

(** X18: when the directory [output_images] is missing, [draw_contours]
    still returns normally: [cv2.imwrite] reports the failure in its result,
    which is ignored, and no file is written. *)
Theorem draw_contours_without_directory (self : Image.t) (w : world) (img : bgr_image) :
  heap w !! Image.image self = Some img ->
  Image.path self ++ ["output_images"] ∉ dirs w ->
  exists w' : world,
    Image.draw_contours L self true w = (Ok tt, w')
    /\ files w' = files w /\ dirs w' = dirs w
    /\ heap w' !! Image.image self = Some img.
Proof.
  intros Himg Hdir.
  pose proof (draw_contours_run L self w img Himg) as Hrun. simpl in Hrun.
  assert (Hw : writable (Image.path self ++ ["output_images"; "contours.png"]) w = false).
  { unfold writable. apply andb_false_iff. left. apply orb_false_iff.
    assert (Hdn : dirname (Image.path self ++ ["output_images"; "contours.png"])
                  = Image.path self ++ ["output_images"]).
    { unfold dirname.
      change ["output_images"; "contours.png"] with (["output_images"] ++ ["contours.png"]).
      by rewrite app_assoc, removelast_last. }
    rewrite Hdn. split; apply bool_decide_eq_false_2; [|exact Hdir].
    intros Hnil. apply app_eq_nil in Hnil as [_ Hnil]. discriminate. }
  rewrite Hw in Hrun. eexists. split; [exact Hrun|]. simpl.
  split; [reflexivity|]. split; [reflexivity|].
  rewrite lookup_insert_ne; [exact Himg|].
  intros Heq. pose proof (is_fresh (dom (heap w))) as Hfresh.
  rewrite Heq in Hfresh. apply Hfresh. apply elem_of_dom. eauto.
Qed.

End WholeRun.

Lemma scrape_keeps_image_posts_witness :
  exists urls : list string,
    Forall2 first_source (filter is_image_post Examples.posts) urls
    /\ (length urls <= length Examples.posts)%nat.
Proof.
  destruct (scrape_keeps_image_posts Examples.feed Examples.reddit
              (Reddit.mk "u" "p" "i" "s" "required" (Reddit.reddit Examples.reddit)
                 (Some ["http://i/1.png"; "http://i/3.png"]))
              "adviceanimals" "hot" 100 eq_refl)
    as (posts & urls & Hl & _ & Hall & Hlen & _).
  injection Hl as <-. exists urls. split; [exact Hall | exact Hlen].
Defined.

Lemma random_url_is_an_image_post_witness :
  exists post : submission,
    post ∈ Examples.posts /\ is_image_post post /\ first_source post "http://i/3.png".
Proof.
  destruct (random_url_is_an_image_post Examples.feed Examples.reddit
              (Reddit.mk "u" "p" "i" "s" "required" (Reddit.reddit Examples.reddit)
                 (Some ["http://i/1.png"; "http://i/3.png"]))
              "adviceanimals" "hot" 100 5 "http://i/3.png" eq_refl eq_refl)
    as (posts & post & Hl & Hin & Himg & Hsrc).
  injection Hl as <-. exists post. auto.
Defined.

Lemma no_image_post_no_url_witness :
  exists self' : Reddit.t,
    Reddit.scrape_sub_pictures Examples.text_feed Examples.reddit "adviceanimals" "hot" 100
    = Ok self'
    /\ Reddit.get_random_url self' 7 = Raise ValueError.
Proof.
  destruct (no_image_post_no_url Examples.text_feed Examples.reddit
              "adviceanimals" "hot" 100 7 Examples.text_posts eq_refl)
    as (self' & Hs & _ & Hr).
  - intros post Hin Himg. unfold is_image_post in Himg.
    apply elem_of_cons in Hin as [->|Hin]; [discriminate Himg|].
    apply elem_of_cons in Hin as [->|Hin]; [discriminate Himg|].
    by apply elem_of_nil in Hin.
  - exists self'. auto.
Defined.

Lemma narrow_down_sublist_witness :
  [Sample.tall2] `sublist_of` [Sample.tall1; Sample.tall2].
Proof.
  apply (narrow_down_sublist (Sample.lib [] "") 100). vm_compute. reflexivity.
Defined.

Lemma narrow_down_keeps_half_witness :
  (length [Sample.tall1; Sample.tall2] <= 2 * length [Sample.tall2] + 1)%nat.
Proof.
  apply (narrow_down_keeps_half (Sample.lib [] "") 100). vm_compute. reflexivity.
Defined.

Lemma narrow_down_nothing_to_remove_witness :
  Image.narrow_down Sample.caption 20 0 [Sample.bar] = Ok [Sample.bar].
Proof.
  apply narrow_down_nothing_to_remove. repeat constructor.
Defined.

Lemma mixed_no_adjacent_rejected :
  no_adjacent_rejected Sample.caption 20 Examples.mixed.
Proof.
  intros [|[|[|j]]] c c' Hc Hc' Hr; simpl in Hc, Hc'; try discriminate.
  - injection Hc as <-. discriminate Hr.
  - injection Hc' as <-. reflexivity.
Qed.

Lemma mixed_earlier_differ : earlier_differ Sample.caption 20 Examples.mixed.
Proof.
  intros j [|[|[|i]]] a c Hji Ha Hc Hr; simpl in Hc; try discriminate; try lia.
  - injection Hc as <-.
    destruct j as [|j]; [|lia]. injection Ha as <-. reflexivity.
  - injection Hc as <-. discriminate Hr.
Qed.

Lemma narrow_down_is_filter_witness :
  Image.narrow_down Sample.caption 20 0 Examples.mixed
  = Ok (filter (fun c => rejected Sample.caption 20 c = false) Examples.mixed).
Proof.
  apply narrow_down_is_filter.
  - exact mixed_earlier_differ.
  - exact mixed_no_adjacent_rejected.
Defined.

Lemma narrow_down_accepts_only_witness :
  Forall (fun c => spec_accepted (boundingRect Sample.caption c) 20)
    [Sample.bar; Sample.box 2 4 14 2].
Proof.
  refine (proj1 (narrow_down_accepts_only Sample.caption 20 Examples.mixed
                   [Sample.bar; Sample.box 2 4 14 2] mixed_earlier_differ
                   mixed_no_adjacent_rejected _)).
  vm_compute. reflexivity.
Defined.

Lemma crop_shape_witness :
  length (Image.crop Sample.caption Examples.solid Sample.bar) = 2%nat
  /\ Forall (fun row => length row = 12%nat)
       (Image.crop Sample.caption Examples.solid Sample.bar).
Proof.
  refine (proj2 (proj2 (crop_shape Sample.caption Examples.solid Sample.bar 4 1 12 2
                          6 20 _ _ _ _ _ _ _)) _ _).
  - reflexivity.
  - lia.
  - lia.
  - lia.
  - lia.
  - reflexivity.
  - repeat constructor.
  - simpl. lia.
  - simpl. lia.
Defined.

Lemma refused_url_writes_nothing_witness :
  is_Ok (fst (Image.__init__ Examples.offline (VStr "u") "run" Sample.empty_world))
  = false
  /\ files (snd (Image.__init__ Examples.offline (VStr "u") "run" Sample.empty_world))
     = files Sample.empty_world.
Proof. apply (refused_url_writes_nothing Examples.offline (VStr "u") ValueError). reflexivity. Defined.

Lemma fresh_run_empty (uid : string) : fresh_run uid Sample.empty_world.
Proof. intros p _. split; [apply not_elem_of_empty | apply lookup_empty]. Qed.

Lemma failed_download_leaves_directories_witness :
  exists w' : world,
    Image.__init__ Examples.offline (VStr "http://j/meme.png") "run" Sample.empty_world
    = (Raise URLError, w')
    /\ files w' = <[ input_png "run" := "PN" ]> ∅
    /\ dirs w' = run_dirs "run" ∪ ∅.
Proof.
  apply (failed_download_leaves_directories Examples.offline
           (VStr "http://j/meme.png") (Interrupted "PN" URLError) "run"
           Sample.empty_world).
  - apply fresh_run_empty.
  - reflexivity.
  - reflexivity.
Defined.

Lemma undecodable_download_witness :
  exists w' : world,
    Image.__init__ Examples.garbled (VStr "u") "run" Sample.empty_world
    = (Raise AttributeError, w')
    /\ files w' = <[ input_png "run" := "PNG" ]> ∅
    /\ heap w' = ∅.
Proof.
  apply (undecodable_download Examples.garbled "run" "u" "PNG" Sample.empty_world).
  - apply fresh_run_empty.
  - reflexivity.
  - reflexivity.
  - reflexivity.
Defined.


Lemma init_writes_two_files_witness :
  files (snd Sample.init_run) !! contours_png "run" = None.
Proof.
  destruct (run_Ok Sample.init_run) as [self E]; [vm_compute; reflexivity|].
  destruct (init_writes_two_files Sample.caption (VStr "u") "run" Sample.empty_world
              (snd Sample.init_run) self E) as (u & data & _ & _ & _ & Hnone).
  rewrite Hnone. apply lookup_empty.
Defined.

Lemma draw_contours_twice_witness :
  exists w1 w2 : world,
    Image.draw_contours Sample.caption Sample.self true Sample.drawing_world = (Ok tt, w1)
    /\ Image.draw_contours Sample.caption Sample.self true w1 = (Ok tt, w2)
    /\ files w2 = files w1.
Proof.
  destruct (draw_contours_twice Sample.caption Sample.self Sample.drawing_world
              (Sample.white 6 20))
    as (w1 & w2 & H1 & H2 & Hf & _).
  - reflexivity.
  - simpl. apply elem_of_singleton. reflexivity.
  - simpl. intros H. apply elem_of_singleton in H. discriminate H.
  - exists w1, w2. auto.
Defined.

Lemma draw_contours_without_directory_witness :
  exists w' : world,
    Image.draw_contours Sample.caption Sample.self true Examples.bare_world = (Ok tt, w')
    /\ files w' = ∅.
Proof.
  destruct (draw_contours_without_directory Sample.caption Sample.self
              Examples.bare_world (Sample.white 6 20))
    as (w' & Hrun & Hf & _).
  - reflexivity.
  - simpl. apply not_elem_of_empty.
  - exists w'. auto.
Defined.
